(** * logCollectByUdp: the UDP access-log collector

    A shallow embedding of the server of this repository (the worker pool,
    the datagram receive loop and [processData]) together with the parts of
    the Go standard library that [processData] calls:
    [strings.TrimSpace], [strings.Split], [strconv.Atoi], the conversion
    [int64(float64)], [time.Unix] and [Time.Format].  The decoder
    [json.Unmarshal], [strconv.ParseFloat] and the time zone of the process
    are parameters of [processData], gathered in the class [Platform].
    Of the test client, [generateMessage] is embedded.

    The file has four parts: the program, the vocabulary of the
    properties, the properties, and runs of the program on the payloads of
    the source.

    Go's [string] is a sequence of bytes: it is modelled by [string], whose
    characters ([ascii]) are bytes.  Go's [int] is the 64-bit integer of the
    platforms the server targets, modelled by [Z] with the wrap-around
    written out where the library relies on it. *)

From Stdlib Require Import ZArith List String Ascii Bool Lia Permutation.
From Stdlib Require Import SpecFloat.
Import ListNotations.

Local Open Scope string_scope.
Local Open Scope list_scope.
Local Open Scope Z_scope.

(** ** Bytes and strings *)

Definition byte_val (c : ascii) : Z := Z.of_N (N_of_ascii c).

Definition byte_chr (n : Z) : ascii := ascii_of_N (Z.to_N n).

(** [len(s)] *)
Definition len (s : string) : Z := Z.of_nat (String.length s).

Fixpoint string_rev_onto (s acc : string) : string :=
  match s with
  | EmptyString => acc
  | String c s' => string_rev_onto s' (String c acc)
  end.

Definition string_rev (s : string) : string := string_rev_onto s EmptyString.

Fixpoint string_drop (n : nat) (s : string) : string :=
  match n, s with
  | O, _ => s
  | S n', String _ s' => string_drop n' s'
  | S _, EmptyString => EmptyString
  end.

Fixpoint string_take (n : nat) (s : string) : string :=
  match n, s with
  | O, _ => EmptyString
  | S n', String c s' => String c (string_take n' s')
  | S _, EmptyString => EmptyString
  end.

(** ** package strconv *)

Module strconv.

Inductive NumError : Type :=
| ErrSyntax
| ErrRange.

Definition error : Type := option NumError.

Definition intSize : Z := 64.
Definition maxUint64 : Z := 2 ^ 64 - 1.

(** [lower(c)]: [c | ('x' - 'X')] *)
Definition lower (c : Z) : Z := Z.lor c 32.

(** The digit loop of [Atoi]'s fast path:
    [ch -= '0'; if ch > 9 { syntax error }; n = n*10 + int(ch)],
    the subtraction being one of bytes. *)
Fixpoint atoi_digits (s : string) (n : Z) : option Z :=
  match s with
  | EmptyString => Some n
  | String c s' =>
      let ch := (byte_val c - 48) mod 256 in
      if 9 <? ch then None else atoi_digits s' (n * 10 + ch)
  end.

(** The digit loop of [ParseUint], at the [base] and [maxVal] of the call.
    [inl] is a return from inside the loop, [inr] the value the loop ends
    with. *)
Fixpoint parseUint_loop (base cutoff maxVal : Z) (s : string) (n : Z)
  : (Z * NumError) + Z :=
  match s with
  | EmptyString => inr n
  | String c0 s' =>
      let c := byte_val c0 in
      let digit :=
        if (48 <=? c) && (c <=? 57) then Some (c - 48)
        else if (97 <=? lower c) && (lower c <=? 122) then Some (lower c - 97 + 10)
        else None in
      match digit with
      | None => inl (0, ErrSyntax)
      | Some d =>
          if base <=? d then inl (0, ErrSyntax)
          else if cutoff <=? n then inl (maxVal, ErrRange)
          else
            let n' := (n * base) mod 2 ^ 64 in
            let n1 := (n' + d) mod 2 ^ 64 in
            if (n1 <? n') || (maxVal <? n1) then inl (maxVal, ErrRange)
            else parseUint_loop base cutoff maxVal s' n1
      end
  end.

(** [ParseUint(s, 10, 0)]: base 10 admits no underscore and no prefix. *)
Definition ParseUint10 (s : string) : Z * error :=
  match s with
  | EmptyString => (0, Some ErrSyntax)
  | _ =>
      let cutoff := maxUint64 / 10 + 1 in
      let maxVal := (2 ^ intSize - 1) mod 2 ^ 64 in
      match parseUint_loop 10 cutoff maxVal s 0 with
      | inl (v, e) => (v, Some e)
      | inr n => (n, None)
      end
  end.

(** [ParseInt(s, 10, 0)] *)
Definition ParseInt10 (s : string) : Z * error :=
  match s with
  | EmptyString => (0, Some ErrSyntax)
  | String c rest =>
      let neg := Ascii.eqb c "-" in
      let s1 := if Ascii.eqb c "+" then rest else if neg then rest else s in
      match ParseUint10 s1 with
      | (_, Some ErrSyntax) => (0, Some ErrSyntax)
      | (un, _) =>
          let cutoff := 2 ^ (intSize - 1) in
          if negb neg && (cutoff <=? un) then (cutoff - 1, Some ErrRange)
          else if neg && (cutoff <? un) then (- cutoff, Some ErrRange)
          else (if neg then - un else un, None)
      end
  end.

(** [Atoi(s)] on a platform whose [int] has 64 bits. *)
Definition Atoi (s : string) : Z * error :=
  let sLen := len s in
  if (0 <? sLen) && (sLen <? 19) then
    match s with
    | EmptyString => (0, Some ErrSyntax)
    | String c rest =>
        let signed := Ascii.eqb c "-" || Ascii.eqb c "+" in
        let s1 := if signed then rest else s in
        if signed && (len s1 <? 1) then (0, Some ErrSyntax)
        else
          match atoi_digits s1 0 with
          | None => (0, Some ErrSyntax)
          | Some n => (if Ascii.eqb c "-" then - n else n, None)
          end
    end
  else ParseInt10 s.

End strconv.

(** ** package strings *)

Module strings.

(** [Split(s, sep)] for a separator of one byte, as [processData] calls it
    (with [" "]): the pieces between the occurrences of [sep], one more
    than there are occurrences. *)
Fixpoint Split (s : string) (sep : ascii) : list string :=
  match s with
  | EmptyString => [EmptyString]
  | String c rest =>
      if Ascii.eqb c sep then EmptyString :: Split rest sep
      else
        match Split rest sep with
        | [] => [String c EmptyString]
        | p :: ps => String c p :: ps
        end
  end.

(** [Join(pieces, sep)], the inverse used to state that nothing but the
    separators is lost. *)
Fixpoint Join (pieces : list string) (sep : ascii) : string :=
  match pieces with
  | [] => EmptyString
  | [p] => p
  | p :: ps => p ++ String sep (Join ps sep)
  end.

(** The UTF-8 encodings of the code points of [unicode.IsSpace]:
    U+0009..U+000D, U+0020, U+0085, U+00A0, U+1680, U+2000..U+200A,
    U+2028, U+2029, U+202F, U+205F, U+3000.  [space_prefix s] is the
    number of bytes of the white-space rune [s] starts with, 0 when it
    starts with none. *)
Definition asciiSpace (c : Z) : bool :=
  ((9 <=? c) && (c <=? 13)) || (c =? 32).

Definition space_prefix (s : string) : nat :=
  match s with
  | EmptyString => O
  | String c0 s1 =>
      let b0 := byte_val c0 in
      if asciiSpace b0 then 1%nat
      else
        match s1 with
        | EmptyString => O
        | String c1 s2 =>
            let b1 := byte_val c1 in
            if (b0 =? 194) && ((b1 =? 133) || (b1 =? 160)) then 2%nat
            else
              match s2 with
              | EmptyString => O
              | String c2 _ =>
                  let b2 := byte_val c2 in
                  if (b0 =? 225) && (b1 =? 154) && (b2 =? 128) then 3%nat
                  else if (b0 =? 226) && (b1 =? 128)
                          && (((128 <=? b2) && (b2 <=? 138))
                              || (b2 =? 168) || (b2 =? 169) || (b2 =? 175))
                  then 3%nat
                  else if (b0 =? 226) && (b1 =? 129) && (b2 =? 159) then 3%nat
                  else if (b0 =? 227) && (b1 =? 128) && (b2 =? 128) then 3%nat
                  else O
              end
        end
  end.

(** The same read from the end of the string: [r] is the string reversed. *)
Definition space_suffix (r : string) : nat :=
  match r with
  | EmptyString => O
  | String c0 r1 =>
      if asciiSpace (byte_val c0) then 1%nat
      else
        match r1 with
        | EmptyString => O
        | String c1 r2 =>
            if Nat.eqb (space_prefix (String c1 (String c0 EmptyString))) 2 then 2%nat
            else
              match r2 with
              | EmptyString => O
              | String c2 _ =>
                  if Nat.eqb (space_prefix (String c2 (String c1 (String c0 EmptyString)))) 3
                  then 3%nat else O
              end
        end
  end.

Fixpoint trim_with (width : string -> nat) (fuel : nat) (s : string) : string :=
  match fuel with
  | O => s
  | S fuel' =>
      match width s with
      | O => s
      | w => trim_with width fuel' (string_drop w s)
      end
  end.

Definition TrimLeftSpace (s : string) : string :=
  trim_with space_prefix (String.length s) s.

Definition TrimRightSpace (s : string) : string :=
  string_rev (trim_with space_suffix (String.length s) (string_rev s)).

(** [TrimSpace(s)]: [s] without the white-space runes it starts and ends
    with. *)
Definition TrimSpace (s : string) : string :=
  TrimRightSpace (TrimLeftSpace s).

End strings.

(** ** float64 and the conversion [int64(f)] *)

(** A [float64] is an IEEE 754 binary64 value. *)
Definition float64 : Type := spec_float.

Definition float64_zero : float64 := S754_zero false.

Definition minInt64 : Z := - 2 ^ 63.
Definition maxInt64 : Z := 2 ^ 63 - 1.

(** The integer part of [f], its fraction discarded (rounding toward
    zero); [None] for an infinity and for a NaN. *)
Definition float64_trunc (f : float64) : option Z :=
  match f with
  | S754_zero _ => Some 0
  | S754_finite s m e =>
      let a := if 0 <=? e then Z.pos m * 2 ^ e else Z.pos m / 2 ^ (- e) in
      Some (if s then - a else a)
  | S754_infinity _ => None
  | S754_nan => None
  end.

(** [int64(f)].  When the integer part of [f] is no [int64] the language
    leaves the result to the implementation: [inexact f] stands for it. *)
Definition int64_of_float64 (inexact : float64 -> Z) (f : float64) : Z :=
  match float64_trunc f with
  | Some n => if (minInt64 <=? n) && (n <=? maxInt64) then n else inexact f
  | None => inexact f
  end.

(** ** package time *)

Module time.

Definition secondsPerMinute : Z := 60.
Definition secondsPerHour : Z := 60 * secondsPerMinute.
Definition secondsPerDay : Z := 24 * secondsPerHour.
Definition daysPer400Years : Z := 365 * 400 + 97.
Definition daysPer100Years : Z := 365 * 100 + 24.
Definition daysPer4Years : Z := 365 * 4 + 1.

Definition absoluteZeroYear : Z := -292277022399.
Definition internalYear : Z := 1.
Definition absoluteToInternal : Z :=
  (absoluteZeroYear - internalYear) * 31556952.
Definition internalToAbsolute : Z := - absoluteToInternal.
Definition unixToInternal : Z :=
  (1969 * 365 + 1969 / 4 - 1969 / 100 + 1969 / 400) * secondsPerDay.

(** A [Time] built by [Unix(sec, 0)]: the seconds since the Unix epoch and
    the offset of the local zone at that instant ([Unix] returns a time in
    [Local]).  The nanoseconds are 0 and the layout prints none. *)
Record Time : Type := mkTime {
  unixSec : Z;
  zoneOffset : Z
}.

(** [Unix(sec, 0)], the zone looked up with [lookup]. *)
Definition Unix (lookup : Z -> Z) (sec : Z) : Time :=
  {| unixSec := sec; zoneOffset := lookup sec |}.

(** [t.abs()]: the seconds since the absolute zero year, a [uint64]. *)
Definition abs (t : Time) : Z :=
  (unixSec t + zoneOffset t + (unixToInternal + internalToAbsolute)) mod 2 ^ 64.

Definition isLeap (year : Z) : bool :=
  (Z.rem year 4 =? 0) && (negb (Z.rem year 100 =? 0) || (Z.rem year 400 =? 0)).

Definition daysBefore : list Z :=
  [0; 31; 59; 90; 120; 151; 181; 212; 243; 273; 304; 334; 365].

(** [absDate(abs, true)]: year, month and day of the month. *)
Definition absDate (abs : Z) : Z * Z * Z :=
  let d := abs / secondsPerDay in
  let n := d / daysPer400Years in
  let y := 400 * n in
  let d := d - daysPer400Years * n in
  let n := d / daysPer100Years in
  let n := n - Z.shiftr n 2 in
  let y := y + 100 * n in
  let d := d - daysPer100Years * n in
  let n := d / daysPer4Years in
  let y := y + 4 * n in
  let d := d - daysPer4Years * n in
  let n := d / 365 in
  let n := n - Z.shiftr n 2 in
  let y := y + n in
  let d := d - 365 * n in
  let year := y + absoluteZeroYear in
  let day := d in
  if isLeap year && (day =? 31 + 29 - 1) then (year, 2, 29)
  else
    let day := if isLeap year && (31 + 29 - 1 <? day) then day - 1 else day in
    let month := day / 31 in
    let end_ := nth (Z.to_nat (month + 1)) daysBefore 0 in
    if end_ <=? day then (year, month + 1 + 1, day - end_ + 1)
    else (year, month + 1, day - nth (Z.to_nat month) daysBefore 0 + 1).

(** [absClock(abs)]: hour, minute and second. *)
Definition absClock (abs : Z) : Z * Z * Z :=
  let sec := abs mod secondsPerDay in
  let hour := sec / secondsPerHour in
  let sec := sec - hour * secondsPerHour in
  let min := sec / secondsPerMinute in
  let sec := sec - min * secondsPerMinute in
  (hour, min, sec).

(** The decimal digits of [u], least significant first, [fuel] bounding
    their number. *)
Fixpoint digits_rev (fuel : nat) (u : Z) : list ascii :=
  match fuel with
  | O => []
  | S fuel' =>
      if u <? 10 then [byte_chr (48 + u)]
      else byte_chr (48 + u mod 10) :: digits_rev fuel' (u / 10)
  end.

Definition string_of_chars (l : list ascii) : string :=
  fold_right String EmptyString l.

(** [appendInt(b, x, width)], as the text appended: a minus sign for a
    negative [x], then its magnitude in decimal, padded with zeros on the
    left to [width] digits. *)
Definition appendInt (x : Z) (width : nat) : string :=
  let u := Z.abs x in
  let ds := digits_rev 20 u in
  let pad := repeat "0"%char (width - List.length ds) in
  let sign := if x <? 0 then "-" else "" in
  String.append sign (string_of_chars (pad ++ rev ds)).

(** [t.Format("2006-01-02 15:04:05")] *)
Definition Format (t : Time) : string :=
  let '(year, month, day) := absDate (abs t) in
  let '(hour, min, sec) := absClock (abs t) in
  (appendInt year 4 ++ "-" ++ appendInt month 2 ++ "-" ++ appendInt day 2
   ++ " " ++ appendInt hour 2 ++ ":" ++ appendInt min 2 ++ ":" ++ appendInt sec 2)%string.

End time.

(** ** The record model *)

(** [LogData]: the record as decoded from a datagram. *)
Record LogData : Type := mkLogData {
  Date : float64;
  RemoteAddr : string;
  RemoteUser : string;
  Request : string;
  Status : string;
  BodyBytesSent : string;
  HttpReferer : string;
  HttpUserAgent : string;
  RequestTime : string;
  UpstreamResponseTime : string;
  RequestLength : string;
  BytesSent : string;
  HttpXForwardedFor : string;
  HttpXRealIp : string;
  Scheme : string;
  HttpHost : string;
  ServerName : string
}.

(** [LogData{}] *)
Definition LogData_zero : LogData :=
  mkLogData float64_zero "" "" "" "" "" "" "" "" "" "" "" "" "" "" "" "".

(** [NginxAccessLog]: a row of the table [nginx_access_logs].  The field
    names carry a prime where [LogData] has a field of the same name. *)
Record NginxAccessLog : Type := mkNginxAccessLog {
  TimeIso8601 : string;
  RemoteAddr' : string;
  RemoteUser' : string;
  Method : string;
  RequestUri : string;
  HttpVersion : string;
  Status' : Z;
  BodyBytesSent' : Z;
  HttpReferer' : string;
  HttpUserAgent' : string;
  RequestTime' : float64;
  UpstreamResponseTime' : float64;
  RequestLength' : Z;
  BytesSent' : Z;
  HttpXForwardedFor' : string;
  HttpXRealIp' : string;
  Scheme' : string;
  HttpHost' : string;
  ServerName' : string
}.

(** [*net.UDPAddr], used for logging only. *)
Record UDPAddr : Type := mkUDPAddr {
  IP : string;
  Port : Z
}.

(** ** Panics and output *)

Inductive RuntimeError : Type :=
| IndexOutOfRange (index length : Z)
| SendOnClosedChannel
| CloseOfClosedChannel.

Inductive Exec (A : Type) : Type :=
| Returned (a : A)
| Panicked (e : RuntimeError).

Arguments Returned {A} a.
Arguments Panicked {A} e.

(** What the server writes: [println] goes to the standard error,
    [fmt.Println] to the standard output, [DBCreate] is a row handed to
    the store ([DB.Create]). *)
Inductive Output : Type :=
| Stderr (line : string)
| Stdout (line : string)
| StdoutRow (row : NginxAccessLog)
| DBCreate (row : NginxAccessLog).

(** A computation that writes output and returns or panics. *)
Definition Run (A : Type) : Type := list Output * Exec A.

Definition ret {A : Type} (a : A) : Run A := ([], Returned a).

Definition bind {A B : Type} (m : Run A) (k : A -> Run B) : Run B :=
  match m with
  | (out, Returned a) => let (out', r) := k a in (out ++ out', r)
  | (out, Panicked e) => (out, Panicked e)
  end.

Definition emit (o : Output) : Run unit := ([o], Returned tt).

Definition lift {A : Type} (x : Exec A) : Run A := ([], x).

Notation "x <- m ;; k" := (bind m (fun x => k))
  (at level 61, m at next level, right associativity).
Notation "m ;; k" := (bind m (fun _ => k))
  (at level 61, right associativity).

Definition println (s : string) : Run unit := emit (Stderr s).
Definition fmt_Println (s : string) : Run unit := emit (Stdout s).
Definition fmt_Println_row (r : NginxAccessLog) : Run unit := emit (StdoutRow r).

(** [a[i]] on a slice: a run-time panic when [i] is out of range. *)
Definition index {A : Type} (a : list A) (i : Z) : Exec A :=
  if (0 <=? i) && (i <? Z.of_nat (List.length a)) then
    match nth_error a (Z.to_nat i) with
    | Some x => Returned x
    | None => Panicked (IndexOutOfRange i (Z.of_nat (List.length a)))
    end
  else Panicked (IndexOutOfRange i (Z.of_nat (List.length a))).

(** ** The library calls that are not modelled by an algorithm *)

Inductive JsonError : Type :=
| SyntaxError
| UnmarshalTypeError.

(** What [processData] takes from its platform:
    - [ParseFloat s] is [strconv.ParseFloat(s, 64)], value and error;
    - [Unmarshal data v] is [json.Unmarshal([]byte(data), &v)]: the record
      [v] as the decoder leaves it, and the error it returns;
    - [inexact f] is the result of [int64(f)] when the integer part of [f]
      is no [int64];
    - [Local sec] is the offset from UTC, in seconds, of the zone of the
      process at the instant [sec]. *)
Class Platform : Type := {
  ParseFloat : string -> float64 * strconv.error;
  Unmarshal : string -> LogData -> LogData * option JsonError;
  inexact : float64 -> Z;
  Local : Z -> Z
}.

(** ** processData *)

Section ProcessData.

Context {platform : Platform}.

(** Lines 238 to 268 of [processData]: the row built from the decoded
    record.  The errors of [Atoi] and [ParseFloat] are dropped ([_]); the
    three indexings of [url] may panic. *)
Definition toNginxAccessLog (logData : LogData) : Exec NginxAccessLog :=
  let t := time.Unix Local (int64_of_float64 inexact (Date logData)) in
  let Status_ := fst (strconv.Atoi (Status logData)) in
  let BodyBytesSent_ := fst (strconv.Atoi (BodyBytesSent logData)) in
  let RequestTime_ := fst (ParseFloat (RequestTime logData)) in
  let UpstreamResponseTime_ := fst (ParseFloat (UpstreamResponseTime logData)) in
  let RequestLength_ := fst (strconv.Atoi (RequestLength logData)) in
  let BytesSent_ := fst (strconv.Atoi (BytesSent logData)) in
  let url := strings.Split (Request logData) " " in
  match index url 0 with
  | Panicked e => Panicked e
  | Returned url0 =>
  match index url 1 with
  | Panicked e => Panicked e
  | Returned url1 =>
  match index url 2 with
  | Panicked e => Panicked e
  | Returned url2 =>
      Returned {|
        TimeIso8601 := time.Format t;
        RemoteAddr' := RemoteAddr logData;
        RemoteUser' := RemoteUser logData;
        Method := url0;
        RequestUri := url1;
        HttpVersion := url2;
        Status' := Status_;
        BodyBytesSent' := BodyBytesSent_;
        HttpReferer' := HttpReferer logData;
        HttpUserAgent' := HttpUserAgent logData;
        RequestTime' := RequestTime_;
        UpstreamResponseTime' := UpstreamResponseTime_;
        RequestLength' := RequestLength_;
        BytesSent' := BytesSent_;
        HttpXForwardedFor' := HttpXForwardedFor logData;
        HttpXRealIp' := HttpXRealIp logData;
        Scheme' := Scheme logData;
        HttpHost' := HttpHost logData;
        ServerName' := ServerName logData
      |}
  end end end.

Definition banner : string := "+++++++++++++".

(** The text of the last [fmt.Println], in UTF-8. *)
Definition inserted : string := "插入clickhouse成功".

(** [processData(data, remoteAddr)].  The call of [DB.Create] is commented
    out in the source: nothing is handed to the store. *)
Definition processData (data : string) (remoteAddr : UDPAddr) : Run unit :=
  if len data =? 0 then ret tt
  else
    let trimmedData := strings.TrimSpace data in
    if len trimmedData =? 0 then ret tt
    else
      println banner ;;
      fmt_Println trimmedData ;;
      println banner ;;
      let logData := fst (Unmarshal trimmedData LogData_zero) in
      nginxAccessLog <- lift (toNginxAccessLog logData) ;;
      println banner ;;
      fmt_Println_row nginxAccessLog ;;
      println banner ;;
      println banner ;;
      fmt_Println inserted ;;
      println banner.

End ProcessData.

(** ** The worker pool *)

Section WorkerPool.

(** [Task]: the values of type [func()] other than [nil].
    [PanicValue]: what [recover()] returns after a panic; it is never
    [nil] (a [panic(nil)] reaches [recover] as a [*runtime.PanicNilError]). *)
Variable Task : Type.
Variable PanicValue : Type.

(** [chan func()]: the buffered tasks, oldest first, the capacity given
    to [make], and whether [close] was called. *)
Record chan : Type := mkChan {
  buf : list Task;
  cap : Z;
  closed : bool
}.

Inductive SendResult : Type :=
| Sent (c : chan)
| NotReady
| Parks
| SendPanics.

(** A send [c <- t]; [block] is false for the send of a [select] that has
    a [default] case.  A send that finds a worker waiting hands the task
    over without the buffer; the buffer is then empty, and it has room
    whenever the pool has a worker, so that is the send into the buffer
    followed by the worker's receive. *)
Definition chansend (c : chan) (t : Task) (block : bool) : SendResult :=
  if closed c then SendPanics
  else if Z.of_nat (List.length (buf c)) <? cap c
       then Sent {| buf := buf c ++ [t]; cap := cap c; closed := false |}
  else if block then Parks
  else NotReady.

(** [close(c)] *)
Definition close (c : chan) : Exec chan :=
  if closed c then Panicked CloseOfClosedChannel
  else Returned {| buf := buf c; cap := cap c; closed := true |}.

(** [WorkerPool]; [wg] is the counter of the [sync.WaitGroup]. *)
Record WorkerPool : Type := mkWorkerPool {
  workers : Z;
  taskQueue : chan;
  wg : Z
}.

Inductive SubmitResult : Type :=
| SubmitReturns (ok : bool) (wp : WorkerPool)
| SubmitPanics (e : RuntimeError)
| SubmitBlocks.

(** [wp.Submit(task)]; [None] is the [nil] task. *)
Definition Submit (wp : WorkerPool) (task : option Task) : SubmitResult :=
  match task with
  | None => SubmitReturns false wp
  | Some t =>
      match chansend (taskQueue wp) t false with
      | Sent c =>
          SubmitReturns true {| workers := workers wp; taskQueue := c; wg := wg wp |}
      | NotReady => SubmitReturns false wp
      | Parks => SubmitBlocks
      | SendPanics => SubmitPanics SendOnClosedChannel
      end
  end.

(** Where the goroutine of [wp.worker(id)] stands: at the receive of
    [for task := range wp.taskQueue], inside [task()], or past the loop
    with its deferred [wp.wg.Done()] run. *)
Inductive Worker : Type :=
| Receiving
| Running (task : Task)
| Exited.

(** Where the call of [wp.Close()] stands: not made, inside [wp.wg.Wait()]
    after [close(wp.taskQueue)], or returned. *)
Inductive Closing : Type :=
| NotCalled
| InWait
| CloseReturned.

(** How the execution of a task ended. *)
Inductive Outcome : Type :=
| Completed
| Recovered (v : PanicValue).

(** The pool with its goroutines.  [logged] holds the lines of
    [log.Printf("... %d panic: %v", id, r)] as the pairs [(id, r)].
    [accepted] and [executed] are history: the tasks for which [Submit]
    returned true, and the tasks whose execution ended, both in order. *)
Record System : Type := mkSystem {
  pool : WorkerPool;
  goroutines : list Worker;
  closing : Closing;
  logged : list (nat * PanicValue);
  accepted : list Task;
  executed : list (Task * Outcome)
}.

Fixpoint update {A : Type} (i : nat) (x : A) (l : list A) : list A :=
  match l, i with
  | [], _ => []
  | _ :: l', O => x :: l'
  | y :: l', S i' => y :: update i' x l'
  end.

(** [NewWorkerPool(workers)]: the channel of capacity [workers*100] and
    the goroutines [worker(0)] ... [worker(workers-1)], one [wg.Add(1)]
    each.  [None]: [make] panics on a negative size, and a product that
    overflows [int] asks for more goroutines than can be started.  The
    limits of memory are not modelled. *)
Definition NewWorkerPool (n : Z) : option System :=
  if (0 <=? n) && (n * 100 <=? maxInt64) then
    Some {|
      pool := {| workers := n;
                 taskQueue := {| buf := []; cap := n * 100; closed := false |};
                 wg := n |};
      goroutines := repeat Receiving (Z.to_nat n);
      closing := NotCalled;
      logged := [];
      accepted := [];
      executed := []
    |}
  else None.

(** What may happen next: a call of [Submit], the receive of worker [id]
    completing, the task of worker [id] returning or panicking, a call of
    [Close], the return of its [wg.Wait()]. *)
Inductive Event : Type :=
| CallSubmit (task : option Task)
| Receive (id : nat)
| TaskReturns (id : nat)
| TaskPanics (id : nat) (v : PanicValue)
| CallClose
| WaitReturns.

Definition with_queue (wp : WorkerPool) (c : chan) : WorkerPool :=
  {| workers := workers wp; taskQueue := c; wg := wg wp |}.

(** One step; [None] when the event cannot happen in [s] (the goroutine
    is blocked or is not at that point).  A panic raised in the caller of
    [Submit] or [Close] leaves the pool as it is. *)
Definition step (s : System) (e : Event) : option System :=
  match e with
  | CallSubmit task =>
      match Submit (pool s) task with
      | SubmitReturns true wp' =>
          match task with
          | Some t =>
              Some {| pool := wp'; goroutines := goroutines s; closing := closing s;
                      logged := logged s; accepted := accepted s ++ [t];
                      executed := executed s |}
          | None => Some s
          end
      | SubmitReturns false _ => Some s
      | SubmitPanics _ => Some s
      | SubmitBlocks => None
      end
  | Receive id =>
      match nth_error (goroutines s) id with
      | Some Receiving =>
          let c := taskQueue (pool s) in
          match buf c with
          | t :: rest =>
              Some {| pool := with_queue (pool s)
                                {| buf := rest; cap := cap c; closed := closed c |};
                      goroutines := update id (Running t) (goroutines s);
                      closing := closing s; logged := logged s;
                      accepted := accepted s; executed := executed s |}
          | [] =>
              if closed c then
                Some {| pool := {| workers := workers (pool s); taskQueue := c;
                                   wg := wg (pool s) - 1 |};
                        goroutines := update id Exited (goroutines s);
                        closing := closing s; logged := logged s;
                        accepted := accepted s; executed := executed s |}
              else None
          end
      | _ => None
      end
  | TaskReturns id =>
      match nth_error (goroutines s) id with
      | Some (Running t) =>
          Some {| pool := pool s;
                  goroutines := update id Receiving (goroutines s);
                  closing := closing s; logged := logged s;
                  accepted := accepted s;
                  executed := executed s ++ [(t, Completed)] |}
      | _ => None
      end
  | TaskPanics id v =>
      match nth_error (goroutines s) id with
      | Some (Running t) =>
          Some {| pool := pool s;
                  goroutines := update id Receiving (goroutines s);
                  closing := closing s; logged := logged s ++ [(id, v)];
                  accepted := accepted s;
                  executed := executed s ++ [(t, Recovered v)] |}
      | _ => None
      end
  | CallClose =>
      match close (taskQueue (pool s)) with
      | Returned c =>
          Some {| pool := with_queue (pool s) c; goroutines := goroutines s;
                  closing := InWait; logged := logged s;
                  accepted := accepted s; executed := executed s |}
      | Panicked _ => Some s
      end
  | WaitReturns =>
      match closing s with
      | InWait =>
          if wg (pool s) =? 0 then
            Some {| pool := pool s; goroutines := goroutines s;
                    closing := CloseReturned; logged := logged s;
                    accepted := accepted s; executed := executed s |}
          else None
      | _ => None
      end
  end.

Fixpoint run (s : System) (es : list Event) : option System :=
  match es with
  | [] => Some s
  | e :: es' =>
      match step s e with
      | Some s' => run s' es'
      | None => None
      end
  end.

(** The states of a pool made by [NewWorkerPool]. *)
Definition reachable (s : System) : Prop :=
  exists n s0 es, NewWorkerPool n = Some s0 /\ run s0 es = Some s.

(** The tasks inside [task()]. *)
Definition running (gs : list Worker) : list Task :=
  flat_map (fun w => match w with Running t => [t] | _ => [] end) gs.

(** The goroutines that have not returned from [worker]. *)
Definition alive (gs : list Worker) : nat :=
  List.length (filter (fun w => match w with Exited => false | _ => true end) gs).

End WorkerPool.

Arguments mkChan {Task} _ _ _.
Arguments buf {Task} _.
Arguments cap {Task} _.
Arguments closed {Task} _.
Arguments Sent {Task} _.
Arguments NotReady {Task}.
Arguments Parks {Task}.
Arguments SendPanics {Task}.
Arguments chansend {Task} _ _ _.
Arguments close {Task} _.
Arguments mkWorkerPool {Task} _ _ _.
Arguments workers {Task} _.
Arguments taskQueue {Task} _.
Arguments wg {Task} _.
Arguments SubmitReturns {Task} _ _.
Arguments SubmitPanics {Task} _.
Arguments SubmitBlocks {Task}.
Arguments Submit {Task} _ _.
Arguments Receiving {Task}.
Arguments Running {Task} _.
Arguments Exited {Task}.
Arguments Completed {PanicValue}.
Arguments Recovered {PanicValue} _.
Arguments mkSystem {Task PanicValue} _ _ _ _ _ _.
Arguments pool {Task PanicValue} _.
Arguments goroutines {Task PanicValue} _.
Arguments closing {Task PanicValue} _.
Arguments logged {Task PanicValue} _.
Arguments accepted {Task PanicValue} _.
Arguments executed {Task PanicValue} _.
Arguments NewWorkerPool {Task PanicValue} _.
Arguments CallSubmit {Task PanicValue} _.
Arguments Receive {Task PanicValue} _.
Arguments TaskReturns {Task PanicValue} _.
Arguments TaskPanics {Task PanicValue} _ _.
Arguments CallClose {Task PanicValue}.
Arguments WaitReturns {Task PanicValue}.
Arguments with_queue {Task} _ _.
Arguments step {Task PanicValue} _ _.
Arguments run {Task PanicValue} _ _.
Arguments reachable {Task PanicValue} _.
Arguments running {Task} _.
Arguments alive {Task} _.

(** ** The receive loop *)

(** [func() { processData(data, remoteAddr) }] with the variables it
    captures. *)
Record Closure : Type := mkClosure {
  data : string;
  remoteAddr : UDPAddr
}.

(** What [conn.ReadFromUDP(buffer)] returns: a datagram and its sender, or
    an error. *)
Inductive ReadResult : Type :=
| ReadOk (datagram : string) (from : UDPAddr)
| ReadFails.

(** The lines of [log.Printf] in [startUDPServer]. *)
Inductive LogLine : Type :=
| LogReadFailed
| LogPoolFull (from : UDPAddr).

(** [len(buffer)]: 60KB. *)
Definition bufferSize : nat := 1024 * 60.

Inductive Served : Type :=
| Continues (wp : WorkerPool Closure) (log : list LogLine)
| ServerPanics (e : RuntimeError)
| ServerBlocks.

(** One turn of the [for] loop of [startUDPServer] on the global
    [workerPool]: the read, and the task submitted for what was read.  A
    datagram longer than the buffer arrives cut to the buffer. *)
Definition serve (workerPool : WorkerPool Closure) (r : ReadResult) : Served :=
  match r with
  | ReadFails => Continues workerPool [LogReadFailed]
  | ReadOk datagram from =>
      let data := string_take bufferSize datagram in
      match Submit workerPool (Some (mkClosure data from)) with
      | SubmitReturns true wp' => Continues wp' []
      | SubmitReturns false wp' => Continues wp' [LogPoolFull from]
      | SubmitPanics e => ServerPanics e
      | SubmitBlocks => ServerBlocks
      end
  end.

(** The execution of a submitted task. *)
Definition call {platform : Platform} (task : Closure) : Run unit :=
  processData (data task) (remoteAddr task).

(** ** The test client: generateMessage *)

Module client.

(** A slice expression [s[:high]] panics when [high] is not between 0 and
    [len(s)]. *)
Inductive Sliced : Type :=
| Slice (s : string)
| SliceBoundsOutOfRange (high length : Z).

Definition slice_to (s : string) (high : Z) : Sliced :=
  if (0 <=? high) && (high <=? len s) then Slice (string_take (Z.to_nat high) s)
  else SliceBoundsOutOfRange high (len s).

Definition base : string := "abcdefghijklmnopqrstuvwxyz0123456789".

(** [for len(result) < size { result += base }]: the value of [result]
    after the loop, [None] when it has not ended within [fuel] tests of
    its condition. *)
Fixpoint fill (fuel : nat) (size : Z) (result : string) : option string :=
  match fuel with
  | O => None
  | S fuel' =>
      if len result <? size then fill fuel' size (result ++ base)
      else Some result
  end.

(** [generateMessage(size)] *)
Definition generateMessage (fuel : nat) (size : Z) : option Sliced :=
  if size <=? 0 then Some (Slice "test")
  else
    match fill fuel size "" with
    | Some result => Some (slice_to result size)
    | None => None
    end.

End client.

(** ** A platform to run the server on

    [ParseFloat] and [Unmarshal] are parameters of [processData].  To run
    it on the payloads of the source, here is a platform in UTC whose
    [ParseFloat] reads the decimal forms (sign, digits, fraction,
    exponent) with IEEE rounding to nearest even, and whose [Unmarshal]
    reads JSON texts into [LogData] the way [encoding/json] does for a
    struct of strings and one float64.  It stands for Go on the inputs of
    the examples; the theorems on [processData] hold on every platform. *)

Module decimal.

Definition is_digit (c : ascii) : bool :=
  (48 <=? byte_val c) && (byte_val c <=? 57).

Fixpoint span_digits (s : string) : string * string :=
  match s with
  | EmptyString => (EmptyString, EmptyString)
  | String c r =>
      if is_digit c then let (d, r') := span_digits r in (String c d, r')
      else (EmptyString, s)
  end.

Fixpoint digits_value (s : string) (acc : Z) : Z :=
  match s with
  | EmptyString => acc
  | String c r => digits_value r (acc * 10 + (byte_val c - 48))
  end.

(** The value [n / d * 2^0] rounded to binary64, [n] and [d] positive. *)
Definition round_ratio (neg : bool) (n d : Z) : float64 :=
  let k := Z.max 0 (64 + Z.log2 d + 1 - Z.log2 n) in
  let q := (n * 2 ^ k) / d in
  let r := (n * 2 ^ k) mod d in
  let l := if r =? 0 then loc_Exact else loc_Inexact (Z.compare (2 * r) d) in
  binary_round_aux 53 1024 neg q (- k) l.

(** The binary64 nearest to [m * 10^e], [m] not negative. *)
Definition of_decimal (neg : bool) (m e : Z) : float64 :=
  if m =? 0 then S754_zero neg
  else if 400 <? e + Z.log2 m / 4 then S754_infinity neg
  else if e + Z.log2 m <? - 400 then S754_zero neg
  else if 0 <=? e then round_ratio neg (m * 10 ^ e) 1
  else round_ratio neg m (10 ^ (- e)).

Definition split_sign (s : string) : bool * string :=
  match s with
  | String c r =>
      if Ascii.eqb c "-" then (true, r)
      else if Ascii.eqb c "+" then (false, r)
      else (false, s)
  | EmptyString => (false, s)
  end.

(** The exponent part: [e] or [E], a sign, digits. *)
Definition exponent (s : string) : option (Z * string) :=
  match s with
  | String c r =>
      if Ascii.eqb c "e" || Ascii.eqb c "E" then
        let (neg, r1) := split_sign r in
        let (ds, r2) := span_digits r1 in
        match ds with
        | EmptyString => None
        | _ => Some (if neg then - digits_value ds 0 else digits_value ds 0, r2)
        end
      else Some (0, s)
  | EmptyString => Some (0, s)
  end.

Definition ParseFloat (s : string) : float64 * strconv.error :=
  let (neg, s1) := split_sign s in
  let (ip, s2) := span_digits s1 in
  let (fp, s3) :=
    match s2 with
    | String c r => if Ascii.eqb c "." then span_digits r else (EmptyString, s2)
    | EmptyString => (EmptyString, s2)
    end in
  match (ip ++ fp)%string, exponent s3 with
  | EmptyString, _ => (float64_zero, Some strconv.ErrSyntax)
  | _, None => (float64_zero, Some strconv.ErrSyntax)
  | ds, Some (e, EmptyString) =>
      let f := of_decimal neg (digits_value ds 0) (e - Z.of_nat (String.length fp)) in
      match f with
      | S754_infinity _ => (f, Some strconv.ErrRange)
      | _ => (f, None)
      end
  | _, Some (_, String _ _) => (float64_zero, Some strconv.ErrSyntax)
  end.

End decimal.

Module json.

#[local] Set Warnings "-register-all".

Inductive Value : Type :=
| Null
| Bool (b : bool)
| Number (literal : string)
| Str (s : string)
| Array (elements : list Value)
| Object (members : list (string * Value)).

Definition quote : Z := 34.
Definition backslash : Z := 92.
Definition maxNestingDepth : Z := 10000.

Definition isSpace (c : ascii) : bool :=
  let b := byte_val c in (b =? 32) || (b =? 9) || (b =? 13) || (b =? 10).

Fixpoint skip_space (s : string) : string :=
  match s with
  | String c r => if isSpace c then skip_space r else s
  | EmptyString => s
  end.

(** A number literal at the head of [s] and what follows it. *)
Definition scan_number (s : string) : option (string * string) :=
  let (sign, s1) :=
    match s with
    | String c r => if Ascii.eqb c "-" then ("-", r) else ("", s)
    | EmptyString => ("", s)
    end in
  let (ip, s2) := decimal.span_digits s1 in
  match ip with
  | EmptyString => None
  | String c0 more =>
      if Ascii.eqb c0 "0" && negb (String.eqb more "") then None
      else
        let frac :=
          match s2 with
          | String c r =>
              if Ascii.eqb c "." then
                let (fp, r') := decimal.span_digits r in
                match fp with
                | EmptyString => None
                | _ => Some (String "." fp, r')
                end
              else Some ("", s2)
          | EmptyString => Some ("", s2)
          end in
        match frac with
        | None => None
        | Some (fp, s3) =>
            let expo :=
              match s3 with
              | String c r =>
                  if Ascii.eqb c "e" || Ascii.eqb c "E" then
                    let (sg, r1) :=
                      match r with
                      | String c' r' =>
                          if Ascii.eqb c' "-" || Ascii.eqb c' "+"
                          then (String c' "", r') else ("", r)
                      | EmptyString => ("", r)
                      end in
                    let (ds, r2) := decimal.span_digits r1 in
                    match ds with
                    | EmptyString => None
                    | _ => Some (String c (sg ++ ds), r2)
                    end
                  else Some ("", s3)
              | EmptyString => Some ("", s3)
              end in
            match expo with
            | None => None
            | Some (ep, s4) => Some (sign ++ ip ++ fp ++ ep, s4)
            end
        end
  end%string.

Definition hex_digit (c : ascii) : option Z :=
  let b := byte_val c in
  if (48 <=? b) && (b <=? 57) then Some (b - 48)
  else if (97 <=? b) && (b <=? 102) then Some (b - 97 + 10)
  else if (65 <=? b) && (b <=? 70) then Some (b - 65 + 10)
  else None.

(** [getu4]: the code unit of the four hexadecimal digits after a
    backslash and a [u]. *)
Definition getu4 (s : string) : option (Z * string) :=
  match s with
  | String b (String u (String h1 (String h2 (String h3 (String h4 r))))) =>
      if (byte_val b =? backslash) && Ascii.eqb u "u" then
        match hex_digit h1, hex_digit h2, hex_digit h3, hex_digit h4 with
        | Some a, Some b', Some c, Some d =>
            Some (((a * 16 + b') * 16 + c) * 16 + d, r)
        | _, _, _, _ => None
        end
      else None
  | _ => None
  end.

(** [utf8.EncodeRune] *)
Definition encodeRune (r : Z) : string :=
  if r <? 128 then String (byte_chr r) ""
  else if r <? 2048 then
    String (byte_chr (192 + r / 64)) (String (byte_chr (128 + r mod 64)) "")
  else if r <? 65536 then
    String (byte_chr (224 + r / 4096))
      (String (byte_chr (128 + (r / 64) mod 64))
         (String (byte_chr (128 + r mod 64)) ""))
  else
    String (byte_chr (240 + r / 262144))
      (String (byte_chr (128 + (r / 4096) mod 64))
         (String (byte_chr (128 + (r / 64) mod 64))
            (String (byte_chr (128 + r mod 64)) ""))).

Definition replacementChar : Z := 65533.

(** The text of a string literal after its opening quote, unquoted, and
    what follows its closing quote. *)
Fixpoint scan_string (fuel : nat) (s : string) : option (string * string) :=
  match fuel with
  | O => None
  | S fuel' =>
      match s with
      | EmptyString => None
      | String c r =>
          let b := byte_val c in
          if b =? quote then Some ("", r)
          else if b <? 32 then None
          else if b =? backslash then
            match r with
            | EmptyString => None
            | String e r1 =>
                let simple (x : Z) :=
                  match scan_string fuel' r1 with
                  | Some (t, rest) => Some (String (byte_chr x) t, rest)
                  | None => None
                  end in
                let eb := byte_val e in
                if eb =? quote then simple quote
                else if eb =? backslash then simple backslash
                else if Ascii.eqb e "/" then simple 47
                else if Ascii.eqb e "b" then simple 8
                else if Ascii.eqb e "f" then simple 12
                else if Ascii.eqb e "n" then simple 10
                else if Ascii.eqb e "r" then simple 13
                else if Ascii.eqb e "t" then simple 9
                else if Ascii.eqb e "u" then
                  match getu4 s with
                  | None => None
                  | Some (rr, r2) =>
                      let surrogate := (55296 <=? rr) && (rr <? 57344) in
                      let pair :=
                        match getu4 r2 with
                        | Some (rr1, r3) =>
                            if (rr <? 56320) && (56320 <=? rr1) && (rr1 <? 57344)
                            then Some (65536 + (rr - 55296) * 1024 + (rr1 - 56320), r3)
                            else None
                        | None => None
                        end in
                      let (rune, r4) :=
                        if surrogate then
                          match pair with
                          | Some p => p
                          | None => (replacementChar, r2)
                          end
                        else (rr, r2) in
                      match scan_string fuel' r4 with
                      | Some (t, rest) => Some ((encodeRune rune ++ t)%string, rest)
                      | None => None
                      end
                  end
                else None
            end
          else
            match scan_string fuel' r with
            | Some (t, rest) => Some (String c t, rest)
            | None => None
            end
      end
  end.

Inductive Expect : Type :=
| AValue
| Members (acc : list (string * Value))
| Elements (acc : list Value).

Definition starts_with (p s : string) : option string :=
  if String.prefix p s then Some (string_drop (String.length p) s) else None.

(** The value (or the rest of the object or array) at the head of [s]. *)
Fixpoint parse (fuel : nat) (depth : Z) (what : Expect) (s : string)
  : option (Value * string) :=
  match fuel with
  | O => None
  | S fuel' =>
      let s := skip_space s in
      match what with
      | AValue =>
          match s with
          | EmptyString => None
          | String c r =>
              if Ascii.eqb c "{" then
                if maxNestingDepth <? depth + 1 then None
                else
                  match skip_space r with
                  | String c' r' =>
                      if Ascii.eqb c' "}" then Some (Object [], r')
                      else parse fuel' (depth + 1) (Members []) r
                  | EmptyString => None
                  end
              else if Ascii.eqb c "[" then
                if maxNestingDepth <? depth + 1 then None
                else
                  match skip_space r with
                  | String c' r' =>
                      if Ascii.eqb c' "]" then Some (Array [], r')
                      else parse fuel' (depth + 1) (Elements []) r
                  | EmptyString => None
                  end
              else if byte_val c =? quote then
                match scan_string (String.length r) r with
                | Some (t, rest) => Some (Str t, rest)
                | None => None
                end
              else
                match starts_with "true" s, starts_with "false" s, starts_with "null" s with
                | Some rest, _, _ => Some (Bool true, rest)
                | _, Some rest, _ => Some (Bool false, rest)
                | _, _, Some rest => Some (Null, rest)
                | None, None, None =>
                    match scan_number s with
                    | Some (lit, rest) => Some (Number lit, rest)
                    | None => None
                    end
                end
          end
      | Members acc =>
          match s with
          | EmptyString => None
          | String c r =>
              if byte_val c =? quote then
                match scan_string (String.length r) r with
                | None => None
                | Some (key, r1) =>
                    match skip_space r1 with
                    | String c1 r2 =>
                        if Ascii.eqb c1 ":" then
                          match parse fuel' depth AValue r2 with
                          | None => None
                          | Some (v, r3) =>
                              match skip_space r3 with
                              | String c3 r4 =>
                                  if Ascii.eqb c3 "," then
                                    parse fuel' depth (Members (acc ++ [(key, v)])) r4
                                  else if Ascii.eqb c3 "}" then
                                    Some (Object (acc ++ [(key, v)]), r4)
                                  else None
                              | EmptyString => None
                              end
                          end
                        else None
                    | EmptyString => None
                    end
                end
              else None
          end
      | Elements acc =>
          match parse fuel' depth AValue s with
          | None => None
          | Some (v, r1) =>
              match skip_space r1 with
              | String c1 r2 =>
                  if Ascii.eqb c1 "," then parse fuel' depth (Elements (acc ++ [v])) r2
                  else if Ascii.eqb c1 "]" then Some (Array (acc ++ [v]), r2)
                  else None
              | EmptyString => None
              end
          end
      end
  end.

(** [checkValid]: the whole text is one JSON value. *)
Definition document (s : string) : option Value :=
  match parse (S (String.length s)) 0 AValue s with
  | Some (v, rest) =>
      match skip_space rest with
      | EmptyString => Some v
      | String _ _ => None
      end
  | None => None
  end.

Definition ascii_lower (c : ascii) : ascii :=
  let b := byte_val c in
  if (65 <=? b) && (b <=? 90) then byte_chr (b + 32) else c.

Fixpoint fold_name (s : string) : string :=
  match s with
  | EmptyString => EmptyString
  | String c r => String (ascii_lower c) (fold_name r)
  end.

(** The fields of [LogData] by their [json] tags. *)
Inductive Field : Type :=
| FDate | FRemoteAddr | FRemoteUser | FRequest | FStatus | FBodyBytesSent
| FHttpReferer | FHttpUserAgent | FRequestTime | FUpstreamResponseTime
| FRequestLength | FBytesSent | FHttpXForwardedFor | FHttpXRealIp
| FScheme | FHttpHost | FServerName.

Definition tags : list (string * Field) :=
  [("date", FDate); ("remote_addr", FRemoteAddr); ("remote_user", FRemoteUser);
   ("request", FRequest); ("status", FStatus);
   ("body_bytes_sent", FBodyBytesSent); ("http_referer", FHttpReferer);
   ("http_user_agent", FHttpUserAgent); ("request_time", FRequestTime);
   ("upstream_response_time", FUpstreamResponseTime);
   ("request_length", FRequestLength); ("bytes_sent", FBytesSent);
   ("http_x_forwarded_for", FHttpXForwardedFor); ("http_x_real_ip", FHttpXRealIp);
   ("scheme", FScheme); ("http_host", FHttpHost); ("server_name", FServerName)].

(** The field a key names: the tag equal to it, and failing that the tag
    equal to it up to the case of its letters. *)
Definition field_of_key (key : string) : option Field :=
  match find (fun p => String.eqb (fst p) key) tags with
  | Some p => Some (snd p)
  | None =>
      match find (fun p => String.eqb (fst p) (fold_name key)) tags with
      | Some p => Some (snd p)
      | None => None
      end
  end.

Definition set_string (f : Field) (x : string) (l : LogData) : LogData :=
  let '(mkLogData d a1 a2 a3 a4 a5 a6 a7 a8 a9 a10 a11 a12 a13 a14 a15 a16) := l in
  match f with
  | FDate => l
  | FRemoteAddr => mkLogData d x a2 a3 a4 a5 a6 a7 a8 a9 a10 a11 a12 a13 a14 a15 a16
  | FRemoteUser => mkLogData d a1 x a3 a4 a5 a6 a7 a8 a9 a10 a11 a12 a13 a14 a15 a16
  | FRequest => mkLogData d a1 a2 x a4 a5 a6 a7 a8 a9 a10 a11 a12 a13 a14 a15 a16
  | FStatus => mkLogData d a1 a2 a3 x a5 a6 a7 a8 a9 a10 a11 a12 a13 a14 a15 a16
  | FBodyBytesSent => mkLogData d a1 a2 a3 a4 x a6 a7 a8 a9 a10 a11 a12 a13 a14 a15 a16
  | FHttpReferer => mkLogData d a1 a2 a3 a4 a5 x a7 a8 a9 a10 a11 a12 a13 a14 a15 a16
  | FHttpUserAgent => mkLogData d a1 a2 a3 a4 a5 a6 x a8 a9 a10 a11 a12 a13 a14 a15 a16
  | FRequestTime => mkLogData d a1 a2 a3 a4 a5 a6 a7 x a9 a10 a11 a12 a13 a14 a15 a16
  | FUpstreamResponseTime =>
      mkLogData d a1 a2 a3 a4 a5 a6 a7 a8 x a10 a11 a12 a13 a14 a15 a16
  | FRequestLength => mkLogData d a1 a2 a3 a4 a5 a6 a7 a8 a9 x a11 a12 a13 a14 a15 a16
  | FBytesSent => mkLogData d a1 a2 a3 a4 a5 a6 a7 a8 a9 a10 x a12 a13 a14 a15 a16
  | FHttpXForwardedFor =>
      mkLogData d a1 a2 a3 a4 a5 a6 a7 a8 a9 a10 a11 x a13 a14 a15 a16
  | FHttpXRealIp => mkLogData d a1 a2 a3 a4 a5 a6 a7 a8 a9 a10 a11 a12 x a14 a15 a16
  | FScheme => mkLogData d a1 a2 a3 a4 a5 a6 a7 a8 a9 a10 a11 a12 a13 x a15 a16
  | FHttpHost => mkLogData d a1 a2 a3 a4 a5 a6 a7 a8 a9 a10 a11 a12 a13 a14 x a16
  | FServerName => mkLogData d a1 a2 a3 a4 a5 a6 a7 a8 a9 a10 a11 a12 a13 a14 a15 x
  end.

Definition set_date (x : float64) (l : LogData) : LogData :=
  let '(mkLogData _ a1 a2 a3 a4 a5 a6 a7 a8 a9 a10 a11 a12 a13 a14 a15 a16) := l in
  mkLogData x a1 a2 a3 a4 a5 a6 a7 a8 a9 a10 a11 a12 a13 a14 a15 a16.

(** One member of the object stored into the record: [null] stores
    nothing, a value of the wrong kind stores nothing and is an error, a
    key that names no field is skipped. *)
Definition store (l : LogData) (member : string * Value) : LogData * bool :=
  let (key, v) := member in
  match field_of_key key with
  | None => (l, true)
  | Some FDate =>
      match v with
      | Null => (l, true)
      | Number lit =>
          match decimal.ParseFloat lit with
          | (f, None) => (set_date f l, true)
          | (_, Some _) => (l, false)
          end
      | _ => (l, false)
      end
  | Some f =>
      match v with
      | Null => (l, true)
      | Str x => (set_string f x l, true)
      | _ => (l, false)
      end
  end.

Fixpoint store_all (l : LogData) (members : list (string * Value)) : LogData * bool :=
  match members with
  | [] => (l, true)
  | m :: ms =>
      let (l1, ok1) := store l m in
      let (l2, ok2) := store_all l1 ms in
      (l2, ok1 && ok2)
  end.

(** [Unmarshal([]byte(data), &v)] for [v] of type [LogData]: a text that
    is no JSON value leaves [v] as it is; the members of an object are
    stored one by one, going on after a member of the wrong kind. *)
Definition Unmarshal (data : string) (v : LogData) : LogData * option JsonError :=
  match document data with
  | None => (v, Some SyntaxError)
  | Some (Object members) =>
      match store_all v members with
      | (v', true) => (v', None)
      | (v', false) => (v', Some UnmarshalTypeError)
      end
  | Some Null => (v, None)
  | Some _ => (v, Some UnmarshalTypeError)
  end.

End json.

(** The platform of the examples: UTC, and [int64(f)] of the amd64
    processors for a value that is no [int64]. *)
Definition utc : Platform := {|
  ParseFloat := decimal.ParseFloat;
  Unmarshal := json.Unmarshal;
  inexact := fun _ => minInt64;
  Local := fun _ => 0
|}.

(** A JSON text written with apostrophes for its quotes. *)
Fixpoint dq (s : string) : string :=
  match s with
  | EmptyString => EmptyString
  | String c r => String (if byte_val c =? 39 then byte_chr 34 else c) (dq r)
  end.

(** The payload of the comment on [LogData]. *)
Definition sample_payload : string :=
  dq ("{'date':1751372240.0,'remote_addr':'172.28.0.1','remote_user':'-',"
      ++ "'request':'GET /hyperfApi/demo/test HTTP/1.1','status':'200',"
      ++ "'body_bytes_sent':'154','http_referer':'-',"
      ++ "'http_user_agent':'PostmanRuntime-ApipostRuntime/1.1.0',"
      ++ "'request_time':'0.071','upstream_response_time':'0.071',"
      ++ "'request_length':'201','bytes_sent':'553','http_x_forwarded_for':'-',"
      ++ "'http_x_real_ip':'-','scheme':'http','http_host':'localhost',"
      ++ "'server_name':'localhost'}")%string.

Definition sample_record : LogData := {|
  Date := S754_finite false 7345787591720960 (-22);
  RemoteAddr := "172.28.0.1";
  RemoteUser := "-";
  Request := "GET /hyperfApi/demo/test HTTP/1.1";
  Status := "200";
  BodyBytesSent := "154";
  HttpReferer := "-";
  HttpUserAgent := "PostmanRuntime-ApipostRuntime/1.1.0";
  RequestTime := "0.071";
  UpstreamResponseTime := "0.071";
  RequestLength := "201";
  BytesSent := "553";
  HttpXForwardedFor := "-";
  HttpXRealIp := "-";
  Scheme := "http";
  HttpHost := "localhost";
  ServerName := "localhost"
|}.

(** * The vocabulary of the properties

    What the theorems speak of beside the program: what a numeral denotes,
    the calendar, the invariant of the pool, and the records, payloads and
    pools the theorems are run on. *)

(** ** Numerals *)

(** What a decimal numeral denotes: digits, after an optional sign. *)
Fixpoint digits_denote (s : string) (acc : Z) : option Z :=
  match s with
  | EmptyString => Some acc
  | String c r =>
      if decimal.is_digit c then digits_denote r (acc * 10 + (byte_val c - 48))
      else None
  end.

Definition numeral (s : string) : option Z :=
  match s with
  | EmptyString => None
  | String c r =>
      if Ascii.eqb c "-" then
        match r with
        | EmptyString => None
        | _ => option_map Z.opp (digits_denote r 0)
        end
      else if Ascii.eqb c "+" then
        match r with
        | EmptyString => None
        | _ => digits_denote r 0
        end
      else digits_denote s 0
  end.

Definition cutoff10 : Z := strconv.maxUint64 / 10 + 1.

(** ** Rows and output *)

(** The row [toNginxAccessLog] builds from [logData] and the first three
    pieces of its request line. *)
Definition row_of {platform : Platform}
    (logData : LogData) (url0 url1 url2 : string) : NginxAccessLog := {|
  TimeIso8601 :=
    time.Format (time.Unix Local (int64_of_float64 inexact (Date logData)));
  RemoteAddr' := RemoteAddr logData;
  RemoteUser' := RemoteUser logData;
  Method := url0;
  RequestUri := url1;
  HttpVersion := url2;
  Status' := fst (strconv.Atoi (Status logData));
  BodyBytesSent' := fst (strconv.Atoi (BodyBytesSent logData));
  HttpReferer' := HttpReferer logData;
  HttpUserAgent' := HttpUserAgent logData;
  RequestTime' := fst (ParseFloat (RequestTime logData));
  UpstreamResponseTime' := fst (ParseFloat (UpstreamResponseTime logData));
  RequestLength' := fst (strconv.Atoi (RequestLength logData));
  BytesSent' := fst (strconv.Atoi (BytesSent logData));
  HttpXForwardedFor' := HttpXForwardedFor logData;
  HttpXRealIp' := HttpXRealIp logData;
  Scheme' := Scheme logData;
  HttpHost' := HttpHost logData;
  ServerName' := ServerName logData
|}.

(** The rows printed, and the rows handed to the store. *)
Definition rows (out : list Output) : list NginxAccessLog :=
  flat_map (fun o => match o with StdoutRow r => [r] | _ => [] end) out.

Definition stored (out : list Output) : list NginxAccessLog :=
  flat_map (fun o => match o with DBCreate r => [r] | _ => [] end) out.








(** A record that is all zero but for its request line. *)
Definition request_only (request : string) : LogData :=
  json.set_string json.FRequest request LogData_zero.

Definition localhost : UDPAddr := {| IP := "127.0.0.1"; Port := 9001 |}.

(** ** The invariant of the pool *)

Section PoolInvariant.

Variable Task : Type.
Variable PanicValue : Type.

(** What holds in every state of a pool made by [NewWorkerPool]. *)
Record invariant (s : System Task PanicValue) : Prop := {
  inv_tasks :
    Permutation (accepted s)
      (map fst (executed s) ++ running (goroutines s) ++ buf (taskQueue (pool s)));
  inv_wg : wg (pool s) = Z.of_nat (alive (goroutines s));
  inv_exit :
    (alive (goroutines s) < List.length (goroutines s))%nat ->
    closed (taskQueue (pool s)) = true /\ buf (taskQueue (pool s)) = [];
  inv_closing : closing s <> NotCalled -> closed (taskQueue (pool s)) = true;
  inv_returned : closing s = CloseReturned -> wg (pool s) = 0;
  inv_cap : cap (taskQueue (pool s)) = Z.of_nat (List.length (goroutines s)) * 100;
  inv_room : Z.of_nat (List.length (buf (taskQueue (pool s)))) <= cap (taskQueue (pool s))
}.

End PoolInvariant.

Arguments invariant {Task PanicValue} s.
Arguments inv_exit {Task PanicValue} s _ _.

(** ** The calendar *)

(** The calendar the claim speaks of: the Gregorian one, extended to all
    years. *)
Definition leap_year (y : Z) : bool :=
  ((y mod 4 =? 0) && negb (y mod 100 =? 0)) || (y mod 400 =? 0).

Definition month_length (leap : bool) (m : Z) : Z :=
  if m =? 2 then (if leap then 29 else 28)
  else if (m =? 4) || (m =? 6) || (m =? 9) || (m =? 11) then 30
  else 31.

(** The days of the months before month [m]. *)
Definition days_to_month (leap : bool) (m : Z) : Z :=
  fold_right Z.add 0
    (map (fun k => month_length leap (Z.of_nat k)) (seq 1 (Z.to_nat (m - 1)))).

(** The days from 1970-01-01 to the first day of year [y]: 365 a year and
    one more for each leap year. *)
Definition days_to_year (y : Z) : Z :=
  365 * (y - 1970) + ((y - 1) / 4 - (y - 1) / 100 + (y - 1) / 400) - 477.

(** The seconds from 1970-01-01 00:00:00 to a date and time of day. *)
Definition civil_seconds (y mo d h mi s : Z) : Z :=
  (((days_to_year y + days_to_month (leap_year y) mo + (d - 1)) * 24 + h) * 60 + mi) * 60 + s.

Definition digit (n : Z) : ascii := byte_chr (48 + n).

Definition two_digits (n : Z) : string :=
  String (digit (n / 10)) (String (digit (n mod 10)) "").

Definition four_digits (n : Z) : string :=
  String (digit (n / 1000)) (String (digit (n / 100 mod 10)) (two_digits (n mod 100))).

(** [text] is the instant [seconds] after 1970-01-01 00:00:00, written
    YYYY-MM-DD HH:MM:SS. *)
Definition renders (text : string) (seconds : Z) : Prop :=
  exists y mo d h mi s,
    0 <= y <= 9999
    /\ 1 <= mo <= 12
    /\ 1 <= d <= month_length (leap_year y) mo
    /\ 0 <= h < 24 /\ 0 <= mi < 60 /\ 0 <= s < 60
    /\ civil_seconds y mo d h mi s = seconds
    /\ text = (four_digits y ++ "-" ++ two_digits mo ++ "-" ++ two_digits d ++ " "
               ++ two_digits h ++ ":" ++ two_digits mi ++ ":" ++ two_digits s)%string.

(** The first half of [absDate]: the year and the day of the year. *)
Definition year_day (d : Z) : Z * Z :=
  let n := d / time.daysPer400Years in
  let y := 400 * n in
  let d := d - time.daysPer400Years * n in
  let n := d / time.daysPer100Years in
  let n := n - Z.shiftr n 2 in
  let y := y + 100 * n in
  let d := d - time.daysPer100Years * n in
  let n := d / time.daysPer4Years in
  let y := y + 4 * n in
  let d := d - time.daysPer4Years * n in
  let n := d / 365 in
  let n := n - Z.shiftr n 2 in
  let y := y + n in
  let d := d - 365 * n in
  (y + time.absoluteZeroYear, d).

(** The second half: the month and the day of the month. *)
Definition month_day (leap : bool) (day : Z) : Z * Z :=
  if leap && (day =? 31 + 29 - 1) then (2, 29)
  else
    let day := if leap && (31 + 29 - 1 <? day) then day - 1 else day in
    let month := day / 31 in
    let end_ := nth (Z.to_nat (month + 1)) time.daysBefore 0 in
    if end_ <=? day then (month + 1 + 1, day - end_ + 1)
    else (month + 1, day - nth (Z.to_nat month) time.daysBefore 0 + 1).

(** ** Checks by running *)

(** A property of the [count] numbers from [start] on, checked by
    running it. *)
Fixpoint all_from (P : Z -> bool) (start : Z) (count : nat) : bool :=
  match count with
  | O => true
  | S count' => P start && all_from P (start + 1) count'
  end.

Definition month_day_ok (leap : bool) (yd : Z) : bool :=
  let (mo, d) := month_day leap yd in
  (1 <=? mo) && (mo <=? 12) && (1 <=? d) && (d <=? month_length leap mo)
  && (days_to_month leap mo + d - 1 =? yd).

(** The days from the absolute zero of [time] to 1970-01-01. *)
Definition epochDays : Z := 730692556 * 146097 + 719162.

Definition absoluteEpoch : Z := time.unixToInternal + time.internalToAbsolute.

(** ** Records, payloads and pools to run the server on *)

(** The row of the sample payload. *)
Definition sample_row : NginxAccessLog := {|
  TimeIso8601 := "2025-07-01 12:17:20";
  RemoteAddr' := "172.28.0.1";
  RemoteUser' := "-";
  Method := "GET";
  RequestUri := "/hyperfApi/demo/test";
  HttpVersion := "HTTP/1.1";
  Status' := 200;
  BodyBytesSent' := 154;
  HttpReferer' := "-";
  HttpUserAgent' := "PostmanRuntime-ApipostRuntime/1.1.0";
  RequestTime' := S754_finite false 5116089176692883 (-56);
  UpstreamResponseTime' := S754_finite false 5116089176692883 (-56);
  RequestLength' := 201;
  BytesSent' := 553;
  HttpXForwardedFor' := "-";
  HttpXRealIp' := "-";
  Scheme' := "http";
  HttpHost' := "localhost";
  ServerName' := "localhost"
|}.

(** A status out of the range of [int]. *)
Definition huge_status : LogData :=
  json.set_string json.FStatus "99999999999999999999" sample_record.

(** The first second of the year 10000, a float64. *)
Definition year_10000 : LogData :=
  json.set_date (S754_finite false 8303486592614400 (-15)) sample_record.

(** The sample payload of the specification: the request is for /path. *)
Definition spec_sample_payload : string :=
  dq ("{'date':1751372240.0,'remote_addr':'172.28.0.1','remote_user':'-',"
      ++ "'request':'GET /path HTTP/1.1','status':'200',"
      ++ "'body_bytes_sent':'154','http_referer':'-',"
      ++ "'http_user_agent':'agent/1.0',"
      ++ "'request_time':'0.071','upstream_response_time':'0.071',"
      ++ "'request_length':'201','bytes_sent':'553','http_x_forwarded_for':'-',"
      ++ "'http_x_real_ip':'-','scheme':'http','http_host':'localhost',"
      ++ "'server_name':'localhost'}")%string.

(** Pools of two workers whose tasks are named by strings and panic
    with strings. *)

Definition pool_of_two : System string string := {|
  pool := {| workers := 2;
             taskQueue := {| buf := []; cap := 200; closed := false |};
             wg := 2 |};
  goroutines := [Receiving; Receiving];
  closing := NotCalled;
  logged := [];
  accepted := [];
  executed := []
|}.

(** Three tasks are submitted and two of them start; the second panics;
    the pool is closed while one task runs and one waits in the queue; a
    late call of [Submit] panics; the workers drain the queue and leave,
    and [Close] returns. *)
Definition drain : list (Event string string) :=
  [CallSubmit (Some "a"); CallSubmit (Some "b"); CallSubmit (Some "c");
   CallSubmit None;
   Receive 0; Receive 1;
   TaskPanics 1 "boom"; Receive 1;
   CallClose; CallSubmit (Some "late");
   TaskReturns 0; TaskReturns 1;
   Receive 0; Receive 1;
   WaitReturns].

Definition drained : System string string := {|
  pool := {| workers := 2;
             taskQueue := {| buf := []; cap := 200; closed := true |};
             wg := 0 |};
  goroutines := [Exited; Exited];
  closing := CloseReturned;
  logged := [(1%nat, "boom")];
  accepted := ["a"; "b"; "c"];
  executed := [("b", Recovered "boom"); ("a", Completed); ("c", Completed)]
|}.

Definition open_pool : WorkerPool string :=
  {| workers := 2; taskQueue := {| buf := ["a"]; cap := 200; closed := false |}; wg := 2 |}.

Definition one_running : System string string := {|
  pool := {| workers := 2;
             taskQueue := {| buf := ["b"]; cap := 200; closed := false |};
             wg := 2 |};
  goroutines := [Running "a"; Receiving];
  closing := NotCalled;
  logged := [];
  accepted := ["a"; "b"];
  executed := []
|}.

Definition fresh_pool : WorkerPool Closure :=
  {| workers := 1; taskQueue := {| buf := []; cap := 100; closed := false |}; wg := 1 |}.

(** ** The history of the pool *)

Section PoolHistory.

Variable Task : Type.
Variable PanicValue : Type.

Local Abbreviation System := (System Task PanicValue).
Local Abbreviation Event := (Event Task PanicValue).

(** The values of the panics among the executed tasks, in order. *)
Definition recovered (ex : list (Task * Outcome PanicValue)) : list PanicValue :=
  flat_map (fun p => match snd p with Recovered v => [v] | Completed => [] end) ex.

(** What the history of a pool keeps besides [invariant]: the queue is the
    end of the accepted tasks, there are [workers] goroutines, and the log
    holds the recovered panics, each with the number of a worker. *)
Record history (s : System) : Prop := {
  h_fifo : exists started, accepted s = started ++ buf (taskQueue (pool s));
  h_workers : workers (pool s) = Z.of_nat (List.length (goroutines s));
  h_log : map snd (logged s) = recovered (executed s);
  h_ids : Forall (fun p => (fst p < List.length (goroutines s))%nat) (logged s)
}.

(** No call of [Close] among the events. *)
Fixpoint no_close (es : list Event) : bool :=
  match es with
  | [] => true
  | CallClose :: _ => false
  | _ :: es' => no_close es'
  end.

(** What is left to do before [Close] returns: three for a queued task
    (to be received, executed, and its worker to come back), two for a
    running one, one for each worker that has to leave. *)
Definition work_left (s : System) : nat :=
  3 * List.length (buf (taskQueue (pool s)))
  + 2 * List.length (running (goroutines s))
  + alive (goroutines s).

(** The events of the workers and of the return of [Close]: no call of
    [Submit] and none of [Close]. *)
Definition draining (e : Event) : bool :=
  match e with
  | Receive _ | TaskReturns _ | TaskPanics _ _ | WaitReturns => true
  | CallSubmit _ | CallClose => false
  end.

End PoolHistory.

Arguments recovered {Task PanicValue} ex.
Arguments history {Task PanicValue} s.
Arguments no_close {Task PanicValue} es.
Arguments work_left {Task PanicValue} s.
Arguments draining {Task PanicValue} e.

(** ** Blank and plain text *)

(** [blank s]: every byte of [s] is one of the six ASCII white-space
    characters. *)
Fixpoint blank (s : string) : bool :=
  match s with
  | EmptyString => true
  | String c r => strings.asciiSpace (byte_val c) && blank r
  end.

(** [starts_plain s]: [s] starts with an ASCII byte that is no white
    space; [ends_plain s]: it ends with one. *)
Definition starts_plain (s : string) : bool :=
  match s with
  | EmptyString => false
  | String c _ => (byte_val c <? 128) && negb (strings.asciiSpace (byte_val c))
  end.

Definition ends_plain (s : string) : bool := starts_plain (string_rev s).

(** [contains c s]: the byte [c] occurs in [s]. *)
Fixpoint contains (c : ascii) (s : string) : bool :=
  match s with
  | EmptyString => false
  | String c' r => Ascii.eqb c' c || contains c r
  end.

(** ** Saturation *)

(** What [strconv.Atoi] returns for a numeral that denotes [n]: [n] when
    it is an [int], and otherwise the bound of [int] next to it with the
    range error. *)
Definition saturated (n : Z) : Z * strconv.error :=
  if n <? minInt64 then (minInt64, Some strconv.ErrRange)
  else if maxInt64 <? n then (maxInt64, Some strconv.ErrRange)
  else (n, None).

(** ** Repeated text *)

(** [copies k s]: [s] written [k] times. *)
Fixpoint copies (k : nat) (s : string) : string :=
  match k with
  | O => ""
  | S k' => copies k' s ++ s
  end.

(** ** More to run the server on *)

(** The pool of two workers after two tasks were submitted, one was
    received and [Close] was called: [Close] waits. *)
Definition closing_pool : System string string := {|
  pool := {| workers := 2;
             taskQueue := {| buf := ["b"]; cap := 200; closed := true |};
             wg := 2 |};
  goroutines := [Running "a"; Receiving];
  closing := InWait;
  logged := [];
  accepted := ["a"; "b"];
  executed := []
|}.

(** The pool of one worker of [fresh_pool], with its goroutine. *)
Definition fresh_system : System Closure RuntimeError := {|
  pool := fresh_pool;
  goroutines := [Receiving];
  closing := NotCalled;
  logged := [];
  accepted := [];
  executed := []
|}.

(** The first message of the simple test of the client. *)
Definition hello : string := "Hello UDP Server!".

(** The sample record, one second later. *)
Definition sample_record_next : LogData :=
  json.set_date (S754_finite false 7345787595915264 (-22)) sample_record.

Definition line_feed : string := String (ascii_of_nat 10) "".

(** * Properties *)

(** ** Bytes *)


Lemma len_nonneg (s : string) : 0 <= len s.
Proof. unfold len. lia. Qed.

Lemma len_zero (s : string) : len s = 0 <-> s = "".
Proof.
  unfold len. destruct s; simpl; split; intro H; try reflexivity; try discriminate; lia.
Qed.

(** ** strconv.Atoi *)



Lemma cutoff10_val : cutoff10 = 1844674407370955162.
Proof. reflexivity. Qed.

Lemma maxUint64_val : strconv.maxUint64 = 18446744073709551615.
Proof. reflexivity. Qed.





(** ** strconv.Atoi reads every numeral *)

Lemma is_digit_range (c : ascii) :
  decimal.is_digit c = true -> 48 <= byte_val c <= 57.
Proof.
  unfold decimal.is_digit. intro H. apply andb_prop in H.
  destruct H as [H1 H2]. apply Z.leb_le in H1. apply Z.leb_le in H2. lia.
Qed.

Lemma digits_denote_ge (s : string) :
  forall acc m, digits_denote s acc = Some m -> 0 <= acc -> acc <= m.
Proof.
  induction s as [|c s IH]; intros acc m H Hacc; cbn [digits_denote] in H.
  - injection H as <-. lia.
  - destruct (decimal.is_digit c) eqn:Ed; [|discriminate].
    apply is_digit_range in Ed.
    apply IH in H; lia.
Qed.

Lemma digits_denote_bound (s : string) :
  forall acc m, digits_denote s acc = Some m -> 0 <= acc ->
                m < (acc + 1) * 10 ^ len s.
Proof.
  induction s as [|c s IH]; intros acc m H Hacc; cbn [digits_denote] in H.
  - injection H as <-. change (len "") with 0. lia.
  - destruct (decimal.is_digit c) eqn:Ed; [|discriminate].
    apply is_digit_range in Ed.
    apply IH in H; [|lia].
    replace (len (String c s)) with (len s + 1)
      by (unfold len; cbn [String.length]; lia).
    rewrite Z.pow_add_r by (pose proof (len_nonneg s); lia).
    assert (Hp : 0 < 10 ^ len s) by (apply Z.pow_pos_nonneg; [lia | apply len_nonneg]).
    nia.
Qed.

Lemma digits_atoi (s : string) :
  forall acc m, digits_denote s acc = Some m -> strconv.atoi_digits s acc = Some m.
Proof.
  induction s as [|c s IH]; intros acc m H;
    cbn [digits_denote strconv.atoi_digits] in *; cbv zeta.
  - exact H.
  - destruct (decimal.is_digit c) eqn:Ed; [|discriminate].
    apply is_digit_range in Ed.
    rewrite Z.mod_small by lia.
    replace (9 <? byte_val c - 48) with false by (symmetry; apply Z.ltb_ge; lia).
    apply IH. exact H.
Qed.

Lemma parseUint_loop_complete (s : string) :
  forall n m,
    0 <= n <= strconv.maxUint64 ->
    digits_denote s n = Some m ->
    strconv.parseUint_loop 10 cutoff10 strconv.maxUint64 s n
    = if m <=? strconv.maxUint64 then inr m
      else inl (strconv.maxUint64, strconv.ErrRange).
Proof.
  induction s as [|c s IH]; intros n m Hn H;
    cbn [strconv.parseUint_loop digits_denote] in *; cbv zeta.
  - injection H as <-.
    replace (n <=? strconv.maxUint64) with true by (symmetry; apply Z.leb_le; lia).
    reflexivity.
  - destruct (decimal.is_digit c) eqn:Ed; [|discriminate].
    pose proof (is_digit_range c Ed) as Hc.
    unfold decimal.is_digit in Ed. rewrite Ed.
    replace (10 <=? byte_val c - 48) with false by (symmetry; apply Z.leb_gt; lia).
    pose proof (digits_denote_ge _ _ _ H ltac:(lia)) as Hge.
    rewrite maxUint64_val in *.
    destruct (cutoff10 <=? n) eqn:Ec.
    { apply Z.leb_le in Ec. rewrite cutoff10_val in Ec.
      replace (m <=? 18446744073709551615) with false
        by (symmetry; apply Z.leb_gt; lia).
      reflexivity. }
    apply Z.leb_gt in Ec. rewrite cutoff10_val in Ec.
    change (2 ^ 64) with 18446744073709551616.
    rewrite (Z.mod_small (n * 10)) by lia.
    destruct (Z_lt_ge_dec (n * 10 + (byte_val c - 48)) 18446744073709551616) as [Hs|Hb].
    + rewrite Z.mod_small by lia.
      replace (n * 10 + (byte_val c - 48) <? n * 10) with false
        by (symmetry; apply Z.ltb_ge; lia).
      replace (18446744073709551615 <? n * 10 + (byte_val c - 48)) with false
        by (symmetry; apply Z.ltb_ge; lia).
      cbn [orb]. cbv iota.
      apply IH; [lia | exact H].
    + replace ((n * 10 + (byte_val c - 48)) mod 18446744073709551616)
        with (n * 10 + (byte_val c - 48) - 18446744073709551616)
        by (apply Z.mod_unique with (q := 1); lia).
      replace (n * 10 + (byte_val c - 48) - 18446744073709551616 <? n * 10) with true
        by (symmetry; apply Z.ltb_lt; lia).
      cbn [orb]. cbv iota beta.
      replace (m <=? 18446744073709551615) with false
        by (symmetry; apply Z.leb_gt; lia).
      reflexivity.
Qed.

Lemma ParseUint10_complete (s : string) (m : Z) :
  s <> "" -> digits_denote s 0 = Some m ->
  strconv.ParseUint10 s
  = if m <=? strconv.maxUint64 then (m, None)
    else (strconv.maxUint64, Some strconv.ErrRange).
Proof.
  intros Hs H. unfold strconv.ParseUint10.
  destruct s as [|c s]; [contradiction|].
  change (strconv.maxUint64 / 10 + 1) with cutoff10.
  change ((2 ^ strconv.intSize - 1) mod 2 ^ 64) with strconv.maxUint64.
  rewrite (parseUint_loop_complete _ 0 m) by (first [exact H | rewrite maxUint64_val; lia]).
  destruct (m <=? strconv.maxUint64); reflexivity.
Qed.

Lemma ParseInt10_complete (s : string) (n : Z) :
  numeral s = Some n -> strconv.ParseInt10 s = saturated n.
Proof.
  unfold numeral, strconv.ParseInt10, saturated.
  destruct s as [|c rest]; [discriminate|].
  change (2 ^ (strconv.intSize - 1)) with 9223372036854775808.
  unfold minInt64, maxInt64.
  change (- 2 ^ 63) with (-9223372036854775808).
  change (2 ^ 63 - 1) with 9223372036854775807.
  destruct (Ascii.eqb c "-") eqn:Em.
  - assert (Ep : Ascii.eqb c "+" = false).
    { apply Ascii.eqb_eq in Em. subst c. reflexivity. }
    rewrite Ep. intro H.
    destruct rest as [|c' rest']; [discriminate|].
    destruct (digits_denote (String c' rest') 0) as [m|] eqn:Ed; [|discriminate].
    cbn [option_map] in H. injection H as <-.
    pose proof (digits_denote_ge _ _ _ Ed ltac:(lia)) as Hm.
    rewrite (ParseUint10_complete _ m) by (try discriminate; exact Ed).
    rewrite maxUint64_val.
    cbn [negb andb].
    destruct (Z.leb_spec m 18446744073709551615);
      destruct (Z.ltb_spec 9223372036854775808 m);
      destruct (Z.ltb_spec (- m) (-9223372036854775808));
      destruct (Z.ltb_spec 9223372036854775807 (- m));
      destruct (Z.ltb_spec 9223372036854775808 18446744073709551615);
      try lia; reflexivity.
  - destruct (Ascii.eqb c "+") eqn:Ep.
    + intro H.
      destruct rest as [|c' rest']; [discriminate|].
      pose proof (digits_denote_ge _ _ _ H ltac:(lia)) as Hm.
      rewrite (ParseUint10_complete _ n) by (try discriminate; exact H).
      rewrite maxUint64_val.
      cbn [negb andb].
      destruct (Z.leb_spec n 18446744073709551615);
        destruct (Z.leb_spec 9223372036854775808 n);
        destruct (Z.ltb_spec n (-9223372036854775808));
        destruct (Z.ltb_spec 9223372036854775807 n);
        destruct (Z.leb_spec 9223372036854775808 18446744073709551615);
        try lia; reflexivity.
    + intro H.
      pose proof (digits_denote_ge _ _ _ H ltac:(lia)) as Hm.
      rewrite (ParseUint10_complete _ n) by (try discriminate; exact H).
      rewrite maxUint64_val.
      cbn [negb andb].
      destruct (Z.leb_spec n 18446744073709551615);
        destruct (Z.leb_spec 9223372036854775808 n);
        destruct (Z.ltb_spec n (-9223372036854775808));
        destruct (Z.ltb_spec 9223372036854775807 n);
        destruct (Z.leb_spec 9223372036854775808 18446744073709551615);
        try lia; reflexivity.
Qed.

(** [Atoi] reads every numeral: the integer it denotes when that is an
    [int], the nearest bound with the range error otherwise. *)
Lemma Atoi_complete (s : string) (n : Z) :
  numeral s = Some n -> strconv.Atoi s = saturated n.
Proof.
  intro H. unfold strconv.Atoi. cbv zeta.
  destruct ((0 <? len s) && (len s <? 19)) eqn:Efast;
    [|apply ParseInt10_complete; exact H].
  apply andb_prop in Efast. destruct Efast as [E0 E19].
  apply Z.ltb_lt in E0. apply Z.ltb_lt in E19.
  assert (Hsmall : forall r m, len r < 19 -> digits_denote r 0 = Some m ->
                               0 <= m < 10 ^ 18).
  { intros r m Hr Hd.
    pose proof (digits_denote_ge _ _ _ Hd ltac:(lia)).
    pose proof (digits_denote_bound _ _ _ Hd ltac:(lia)) as Hb.
    pose proof (len_nonneg r).
    assert (10 ^ len r <= 10 ^ 18) by (apply Z.pow_le_mono_r; lia).
    lia. }
  assert (Hsat : forall m, - 10 ^ 18 < m < 10 ^ 18 -> saturated m = (m, None)).
  { intros m Hm. unfold saturated, minInt64, maxInt64.
    change (10 ^ 18) with 1000000000000000000 in Hm.
    change (- 2 ^ 63) with (-9223372036854775808).
    change (2 ^ 63 - 1) with 9223372036854775807.
    destruct (Z.ltb_spec m (-9223372036854775808)); [lia|].
    destruct (Z.ltb_spec 9223372036854775807 m); [lia|]. reflexivity. }
  unfold numeral in H.
  destruct s as [|c rest]; [discriminate|].
  assert (Hlen : len rest < 19)
    by (unfold len in *; cbn [String.length] in E19; lia).
  destruct (Ascii.eqb c "-") eqn:Em.
  - cbn [orb].
    destruct rest as [|c' rest']; [discriminate|].
    replace (len (String c' rest') <? 1) with false
      by (symmetry; apply Z.ltb_ge; unfold len; cbn [String.length]; lia).
    cbn [andb].
    destruct (digits_denote (String c' rest') 0) as [m|] eqn:Ed; [|discriminate].
    cbn [option_map] in H. injection H as <-.
    rewrite (digits_atoi _ _ _ Ed).
    pose proof (Hsmall _ _ Hlen Ed).
    rewrite Hsat by lia. reflexivity.
  - destruct (Ascii.eqb c "+") eqn:Ep.
    + cbn [orb].
      destruct rest as [|c' rest']; [discriminate|].
      replace (len (String c' rest') <? 1) with false
        by (symmetry; apply Z.ltb_ge; unfold len; cbn [String.length]; lia).
      cbn [andb].
      rewrite (digits_atoi _ _ _ H).
      pose proof (Hsmall _ _ Hlen H).
      rewrite Hsat by lia. reflexivity.
    + cbn [orb andb].
      rewrite (digits_atoi _ _ _ H).
      pose proof (Hsmall _ _ E19 H).
      rewrite Hsat by lia. reflexivity.
Qed.

Lemma saturated_fst (n : Z) :
  fst (saturated n) = Z.max minInt64 (Z.min maxInt64 n).
Proof.
  unfold saturated, minInt64, maxInt64.
  change (- 2 ^ 63) with (-9223372036854775808).
  change (2 ^ 63 - 1) with 9223372036854775807.
  destruct (Z.ltb_spec n (-9223372036854775808)); [cbn [fst]; lia|].
  destruct (Z.ltb_spec 9223372036854775807 n); cbn [fst]; lia.
Qed.

(** ** strconv.Atoi on a text that is no numeral *)










(** ** strings.Split *)

Lemma Split_not_nil (s : string) (sep : ascii) : strings.Split s sep <> [].
Proof.
  destruct s as [|c r]; simpl; [discriminate|].
  destruct (Ascii.eqb c sep); [discriminate|].
  destruct (strings.Split r sep); discriminate.
Qed.

Lemma Join_cons (p : string) (ps : list string) (sep : ascii) :
  ps <> [] ->
  strings.Join (p :: ps) sep = (p ++ String sep (strings.Join ps sep))%string.
Proof. destruct ps; [contradiction | reflexivity]. Qed.

(** Joining the pieces with the separator gives the string back. *)
Lemma Join_Split (s : string) (sep : ascii) :
  strings.Join (strings.Split s sep) sep = s.
Proof.
  induction s as [|c r IH]; [reflexivity|].
  cbn [strings.Split].
  pose proof (Split_not_nil r sep) as Hne.
  destruct (Ascii.eqb c sep) eqn:E.
  - apply Ascii.eqb_eq in E. subst c.
    rewrite Join_cons by exact Hne. rewrite IH. reflexivity.
  - destruct (strings.Split r sep) as [|p ps] eqn:Es; [contradiction|].
    destruct ps as [|p' ps'].
    + cbn [strings.Join] in *. rewrite IH. reflexivity.
    + rewrite Join_cons by discriminate.
      rewrite Join_cons in IH by discriminate.
      cbn [String.append]. rewrite IH. reflexivity.
Qed.

(** ** Indexing *)

Lemma index_in_range {A : Type} (a : list A) (i : nat) (x : A) :
  nth_error a i = Some x -> index a (Z.of_nat i) = Returned x.
Proof.
  intro H. unfold index.
  assert (Hlt : (i < List.length a)%nat) by (apply nth_error_Some; congruence).
  replace (0 <=? Z.of_nat i) with true by (symmetry; apply Z.leb_le; lia).
  replace (Z.of_nat i <? Z.of_nat (List.length a)) with true
    by (symmetry; apply Z.ltb_lt; lia).
  cbn [andb]. rewrite Nat2Z.id, H. reflexivity.
Qed.

Lemma index_out_of_range {A : Type} (a : list A) (i : Z) :
  Z.of_nat (List.length a) <= i ->
  index a i = Panicked (IndexOutOfRange i (Z.of_nat (List.length a))).
Proof.
  intro H. unfold index.
  replace (i <? Z.of_nat (List.length a)) with false
    by (symmetry; apply Z.ltb_ge; lia).
  rewrite andb_false_r. reflexivity.
Qed.

Lemma index_0 {A : Type} (a : A) (l : list A) : index (a :: l) 0 = Returned a.
Proof. exact (index_in_range (a :: l) 0 a eq_refl). Qed.

Lemma index_1 {A : Type} (a b : A) (l : list A) : index (a :: b :: l) 1 = Returned b.
Proof. exact (index_in_range (a :: b :: l) 1 b eq_refl). Qed.

Lemma index_2 {A : Type} (a b c : A) (l : list A) :
  index (a :: b :: c :: l) 2 = Returned c.
Proof. exact (index_in_range (a :: b :: c :: l) 2 c eq_refl). Qed.

(** ** The conversion *)

Section Conversion.

Context {platform : Platform}.

(** The three outcomes of the conversion, by the number of pieces of the
    request line. *)
Lemma toNginxAccessLog_cases (l : LogData) :
  match strings.Split (Request l) " " with
  | [] => False
  | [_] => toNginxAccessLog l = Panicked (IndexOutOfRange 1 1)
  | [_; _] => toNginxAccessLog l = Panicked (IndexOutOfRange 2 2)
  | url0 :: url1 :: url2 :: _ => toNginxAccessLog l = Returned (row_of l url0 url1 url2)
  end.
Proof.
  unfold toNginxAccessLog.
  pose proof (Split_not_nil (Request l) " ") as Hne.
  destruct (strings.Split (Request l) " ") as [|a [|b [|c rest]]]; [contradiction| | |].
  - rewrite index_0, (index_out_of_range [a] 1) by (simpl; lia). reflexivity.
  - rewrite index_0, index_1, (index_out_of_range [a; b] 2) by (simpl; lia).
    reflexivity.
  - rewrite index_0, index_1, index_2. reflexivity.
Qed.

Lemma toNginxAccessLog_returns (l : LogData) (r : NginxAccessLog) :
  toNginxAccessLog l = Returned r ->
  exists url0 url1 url2 rest,
    strings.Split (Request l) " " = url0 :: url1 :: url2 :: rest
    /\ r = row_of l url0 url1 url2.
Proof.
  intro H.
  pose proof (toNginxAccessLog_cases l) as Hc.
  destruct (strings.Split (Request l) " ") as [|a [|b [|c rest]]];
    [contradiction | congruence | congruence |].
  exists a, b, c, rest. split; [reflexivity | congruence].
Qed.

End Conversion.

(** ** processData *)

Section ProcessDataFacts.

Context {platform : Platform}.

Lemma processData_skips (data : string) (addr : UDPAddr) :
  data = "" \/ strings.TrimSpace data = "" ->
  processData data addr = ([], Returned tt).
Proof.
  intros [H|H]; unfold processData.
  - subst data. reflexivity.
  - destruct (len data =? 0); [reflexivity|].
    rewrite H. reflexivity.
Qed.

Lemma processData_converts (data : string) (addr : UDPAddr) :
  data <> "" -> strings.TrimSpace data <> "" ->
  processData data addr =
  match toNginxAccessLog (fst (Unmarshal (strings.TrimSpace data) LogData_zero)) with
  | Returned r =>
      ([Stderr banner; Stdout (strings.TrimSpace data); Stderr banner;
        Stderr banner; StdoutRow r; Stderr banner;
        Stderr banner; Stdout inserted; Stderr banner], Returned tt)
  | Panicked e =>
      ([Stderr banner; Stdout (strings.TrimSpace data); Stderr banner], Panicked e)
  end.
Proof.
  intros Hd Ht. unfold processData.
  destruct (len data =? 0) eqn:E1.
  { apply Z.eqb_eq in E1. apply len_zero in E1. contradiction. }
  destruct (len (strings.TrimSpace data) =? 0) eqn:E2.
  { apply Z.eqb_eq in E2. apply len_zero in E2. contradiction. }
  destruct (toNginxAccessLog (fst (Unmarshal (strings.TrimSpace data) LogData_zero)));
    reflexivity.
Qed.

(** C1 (as the code has it): a request line of fewer than three pieces,
    split at single spaces, makes the conversion panic with an index out
    of range: [url[1]] on one piece, [url[2]] on two.  The source has no
    check of [len(url)], and returns no error. *)
Theorem short_request_line_panics (l : LogData) :
  (List.length (strings.Split (Request l) " ") < 3)%nat ->
  toNginxAccessLog l =
  Panicked (IndexOutOfRange (Z.of_nat (List.length (strings.Split (Request l) " ")))
                            (Z.of_nat (List.length (strings.Split (Request l) " ")))).
Proof.
  intro H.
  pose proof (toNginxAccessLog_cases l) as Hc.
  destruct (strings.Split (Request l) " ") as [|a [|b [|c rest]]];
    [contradiction | exact Hc | exact Hc | simpl in H; lia].
Qed.

(** A request line of more than three pieces is converted all the same,
    from its first three pieces. *)
Lemma long_request_line_converts (l : LogData) (a b c d : string) (rest : list string) :
  strings.Split (Request l) " " = a :: b :: c :: d :: rest ->
  toNginxAccessLog l = Returned (row_of l a b c).
Proof.
  intro H. pose proof (toNginxAccessLog_cases l) as Hc.
  rewrite H in Hc. exact Hc.
Qed.



(** C9 (amended): [processData] hands nothing to the store, the call of
    [DB.Create] being commented out; when the conversion returns a row,
    that row is printed, once; for a payload decoded to the request line,
    status, body size and request time of the sample in the source, the
    row printed has the method GET, the URI /hyperfApi/demo/test, the
    version HTTP/1.1, the status 200, 154 bytes of body and the request
    time [strconv.ParseFloat] reads from 0.071. *)
Theorem row_printed_once_nothing_stored (data : string) (addr : UDPAddr) :
  stored (fst (processData data addr)) = []
  /\ (forall r,
        data <> "" -> strings.TrimSpace data <> "" ->
        toNginxAccessLog (fst (Unmarshal (strings.TrimSpace data) LogData_zero))
        = Returned r ->
        rows (fst (processData data addr)) = [r]
        /\ snd (processData data addr) = Returned tt)
  /\ (forall l,
        data <> "" -> strings.TrimSpace data <> "" ->
        fst (Unmarshal (strings.TrimSpace data) LogData_zero) = l ->
        Request l = "GET /hyperfApi/demo/test HTTP/1.1" ->
        Status l = "200" -> BodyBytesSent l = "154" -> RequestTime l = "0.071" ->
        exists r,
          rows (fst (processData data addr)) = [r]
          /\ Method r = "GET"
          /\ RequestUri r = "/hyperfApi/demo/test"
          /\ HttpVersion r = "HTTP/1.1"
          /\ Status' r = 200
          /\ BodyBytesSent' r = 154
          /\ RequestTime' r = fst (ParseFloat "0.071")).
Proof.
  split; [|split].
  - destruct (string_dec data "") as [Hd|Hd].
    { rewrite processData_skips by (left; exact Hd). reflexivity. }
    destruct (string_dec (strings.TrimSpace data) "") as [Ht|Ht].
    { rewrite processData_skips by (right; exact Ht). reflexivity. }
    rewrite processData_converts by assumption.
    destruct (toNginxAccessLog _); reflexivity.
  - intros r Hd Ht Hr.
    rewrite processData_converts by assumption.
    rewrite Hr. split; reflexivity.
  - intros l Hd Ht Hl Hreq Hst Hbb Hrt.
    rewrite processData_converts by assumption.
    rewrite Hl.
    pose proof (toNginxAccessLog_cases l) as Hc.
    rewrite Hreq in Hc. cbn [strings.Split Ascii.eqb Bool.eqb] in Hc.
    rewrite Hc.
    eexists. split; [reflexivity|].
    cbn [row_of Method RequestUri HttpVersion Status' BodyBytesSent' RequestTime'].
    rewrite Hst, Hbb, Hrt.
    repeat split; reflexivity.
Qed.

End ProcessDataFacts.

(** ** The worker pool *)

Section UpdateFacts.

Context {A : Type}.

Lemma update_length (i : nat) (x : A) (l : list A) :
  List.length (update i x l) = List.length l.
Proof.
  revert i. induction l as [|y l IH]; intros [|i]; simpl; auto.
Qed.

Lemma update_split (i : nat) (x w : A) (l : list A) :
  nth_error l i = Some w ->
  exists l1 l2, l = l1 ++ w :: l2 /\ update i x l = l1 ++ x :: l2.
Proof.
  revert i. induction l as [|y l IH]; intros [|i] H; simpl in H; try discriminate.
  - inversion H; subst. exists [], l. split; reflexivity.
  - destruct (IH i H) as (l1 & l2 & -> & E).
    exists (y :: l1), l2. simpl. rewrite E. split; reflexivity.
Qed.

Lemma update_same (i : nat) (x w : A) (l : list A) :
  nth_error l i = Some w -> nth_error (update i x l) i = Some x.
Proof.
  revert i. induction l as [|y l IH]; intros [|i] H; simpl in *; try discriminate; auto.
Qed.

Lemma update_other (i j : nat) (x : A) (l : list A) :
  i <> j -> nth_error (update i x l) j = nth_error l j.
Proof.
  revert i j. induction l as [|y l IH]; intros [|i] [|j] H; simpl; auto.
  congruence.
Qed.

End UpdateFacts.

Section PoolFacts.

Variable Task : Type.
Variable PanicValue : Type.

Local Abbreviation System := (System Task PanicValue).
Local Abbreviation Event := (Event Task PanicValue).

Lemma running_app (l1 l2 : list (Worker Task)) :
  running (l1 ++ l2) = running l1 ++ running l2.
Proof. unfold running. apply flat_map_app. Qed.

Lemma alive_app (l1 l2 : list (Worker Task)) :
  alive (l1 ++ l2) = (alive l1 + alive l2)%nat.
Proof. unfold alive. rewrite filter_app, length_app. reflexivity. Qed.

Lemma alive_cons (w : Worker Task) (l : list (Worker Task)) :
  alive (w :: l) = ((match w with Exited => 0 | _ => 1 end) + alive l)%nat.
Proof. unfold alive. destruct w; reflexivity. Qed.

Lemma alive_le_length (l : list (Worker Task)) : (alive l <= List.length l)%nat.
Proof.
  induction l as [|w l IH]; [apply Nat.le_refl|].
  rewrite alive_cons. cbn [List.length]. destruct w; lia.
Qed.

Lemma alive_repeat (n : nat) : alive (repeat (@Receiving Task) n) = n.
Proof.
  induction n as [|n IH]; [reflexivity|].
  cbn [repeat]. rewrite alive_cons, IH. reflexivity.
Qed.

Lemma alive_zero (l : list (Worker Task)) :
  alive l = O -> Forall (fun w => w = Exited) l /\ running l = [].
Proof.
  induction l as [|w l IH]; intro H.
  - split; [constructor | reflexivity].
  - rewrite alive_cons in H.
    destruct w; try (exfalso; lia).
    destruct (IH H) as [IH1 IH2].
    split; [constructor; [reflexivity | exact IH1] | exact IH2].
Qed.

Lemma alive_full (l : list (Worker Task)) :
  alive l = List.length l -> Forall (fun w => w <> Exited) l.
Proof.
  induction l as [|w l IH]; intro H; [constructor|].
  rewrite alive_cons in H. cbn [List.length] in H.
  pose proof (alive_le_length l) as Hl.
  constructor.
  - intro E. subst w. lia.
  - apply IH. destruct w; lia.
Qed.

Lemma invariant_init (n : Z) (s0 : System) :
  NewWorkerPool n = Some s0 -> invariant s0.
Proof.
  unfold NewWorkerPool. intro H.
  destruct ((0 <=? n) && (n * 100 <=? maxInt64)) eqn:E; [|discriminate].
  apply andb_prop in E. destruct E as [E1 _]. apply Z.leb_le in E1.
  inversion H; subst; clear H.
  constructor; cbn [pool goroutines closing accepted executed taskQueue buf cap closed wg].
  - assert (Hr : running (repeat (@Receiving Task) (Z.to_nat n)) = []).
    { induction (Z.to_nat n) as [|k IH]; [reflexivity | exact IH]. }
    rewrite Hr. constructor.
  - rewrite alive_repeat. lia.
  - rewrite alive_repeat, repeat_length. lia.
  - intro H. contradiction.
  - discriminate.
  - rewrite repeat_length. lia.
  - simpl. lia.
Qed.

Lemma Submit_cases (wp : WorkerPool Task) (task : option Task) :
  match Submit wp task with
  | SubmitReturns true wp' =>
      exists t, task = Some t
        /\ closed (taskQueue wp) = false
        /\ Z.of_nat (List.length (buf (taskQueue wp))) < cap (taskQueue wp)
        /\ wp' = {| workers := workers wp;
                    taskQueue := {| buf := buf (taskQueue wp) ++ [t];
                                    cap := cap (taskQueue wp); closed := false |};
                    wg := wg wp |}
  | SubmitReturns false wp' =>
      wp' = wp
      /\ (task = None
          \/ (closed (taskQueue wp) = false
              /\ cap (taskQueue wp) <= Z.of_nat (List.length (buf (taskQueue wp)))))
  | SubmitPanics e =>
      e = SendOnClosedChannel /\ task <> None /\ closed (taskQueue wp) = true
  | SubmitBlocks => False
  end.
Proof.
  unfold Submit, chansend.
  destruct task as [t|]; [|split; [reflexivity | left; reflexivity]].
  destruct (closed (taskQueue wp)) eqn:Ec.
  - split; [reflexivity | split; [discriminate | reflexivity]].
  - destruct (Z.of_nat (List.length (buf (taskQueue wp))) <? cap (taskQueue wp)) eqn:El.
    + apply Z.ltb_lt in El. exists t. repeat split; auto.
    + apply Z.ltb_ge in El. split; [reflexivity | right; split; [reflexivity | exact El]].
Qed.

Lemma invariant_step (s s' : System) (e : Event) :
  invariant s -> step s e = Some s' -> invariant s'.
Proof.
  intros I H.
  destruct I as [It Iw Ie Ic Ir Icap Iroom].
  destruct e as [task|id|id|id v| |]; cbn [step] in H.
  - (* CallSubmit *)
    pose proof (Submit_cases (pool s) task) as Hs.
    destruct (Submit (pool s) task) as [[|] wp'|err|].
    + destruct Hs as (t & -> & Hopen & Hroom & ->).
      inversion H; subst; clear H.
      constructor; cbn [pool goroutines closing accepted executed taskQueue buf cap closed wg].
      * rewrite !app_assoc. apply Permutation_app_tail.
        rewrite <- app_assoc. exact It.
      * exact Iw.
      * intro Hlt. destruct (Ie Hlt) as [Hcl _]. congruence.
      * intro Hn. specialize (Ic Hn). congruence.
      * exact Ir.
      * exact Icap.
      * rewrite length_app. simpl. lia.
    + inversion H; subst. constructor; assumption.
    + inversion H; subst. constructor; assumption.
    + discriminate.
  - (* Receive *)
    destruct (nth_error (goroutines s) id) as [[|t0|]|] eqn:En; try discriminate.
    destruct (buf (taskQueue (pool s))) as [|t rest] eqn:Eb.
    + destruct (closed (taskQueue (pool s))) eqn:Ecl; [|discriminate].
      destruct (update_split id Exited _ _ En) as (l1 & l2 & Hg & Hu).
      inversion H; subst; clear H.
      cbn [pool goroutines closing accepted executed taskQueue buf cap closed wg] in *.
      rewrite Hg in *. rewrite Hu.
      constructor;
        cbn [pool goroutines closing accepted executed taskQueue buf cap closed wg];
        rewrite ?Eb, ?Ecl.
      * rewrite running_app in *. exact It.
      * rewrite Iw, !alive_app, !alive_cons. lia.
      * intros _. split; reflexivity.
      * intros _. reflexivity.
      * intro Hr. specialize (Ir Hr). rewrite Iw, alive_app, alive_cons in Ir. lia.
      * rewrite Icap, !length_app. reflexivity.
      * simpl. lia.
    + destruct (update_split id (Running t) _ _ En) as (l1 & l2 & Hg & Hu).
      inversion H; subst; clear H.
      cbn [pool goroutines closing accepted executed taskQueue buf cap closed wg
           with_queue workers] in *.
      rewrite Hg in *. rewrite Hu.
      constructor;
        cbn [pool goroutines closing accepted executed taskQueue buf cap closed wg
             with_queue workers].
      * rewrite running_app in *. cbn [running flat_map] in *.
        fold (running l2) in *. cbn [app] in *.
        eapply Permutation_trans; [exact It|].
        apply Permutation_app_head.
        rewrite <- !app_assoc. apply Permutation_app_head.
        cbn [app]. symmetry. apply Permutation_middle.
      * rewrite Iw, !alive_app, !alive_cons. reflexivity.
      * intro Hlt.
        assert (Hlt' : (alive (l1 ++ Receiving :: l2)
                        < List.length (l1 ++ Receiving :: l2))%nat).
        { rewrite alive_app, alive_cons, length_app in *. exact Hlt. }
        destruct (Ie Hlt') as [_ Hnil]. discriminate.
      * exact Ic.
      * exact Ir.
      * rewrite Icap, !length_app. reflexivity.
      * cbn [List.length] in Iroom. lia.
  - (* TaskReturns *)
    destruct (nth_error (goroutines s) id) as [[|t|]|] eqn:En; try discriminate.
    destruct (update_split id Receiving _ _ En) as (l1 & l2 & Hg & Hu).
    inversion H; subst; clear H.
    cbn [pool goroutines closing accepted executed] in *.
    rewrite Hg in *. rewrite Hu.
    constructor; cbn [pool goroutines closing accepted executed].
    + rewrite map_app, running_app in *. cbn [running flat_map map fst] in *.
      fold (running l2) in *. cbn [app] in *.
      eapply Permutation_trans; [exact It|].
      rewrite <- !app_assoc. apply Permutation_app_head.
      cbn [app]. symmetry. apply Permutation_middle.
    + rewrite Iw, !alive_app, !alive_cons. reflexivity.
    + intro Hlt. apply Ie. rewrite alive_app, alive_cons, length_app in *. exact Hlt.
    + exact Ic.
    + exact Ir.
    + rewrite Icap, !length_app. reflexivity.
    + exact Iroom.
  - (* TaskPanics *)
    destruct (nth_error (goroutines s) id) as [[|t|]|] eqn:En; try discriminate.
    destruct (update_split id Receiving _ _ En) as (l1 & l2 & Hg & Hu).
    inversion H; subst; clear H.
    cbn [pool goroutines closing accepted executed] in *.
    rewrite Hg in *. rewrite Hu.
    constructor; cbn [pool goroutines closing accepted executed].
    + rewrite map_app, running_app in *. cbn [running flat_map map fst] in *.
      fold (running l2) in *. cbn [app] in *.
      eapply Permutation_trans; [exact It|].
      rewrite <- !app_assoc. apply Permutation_app_head.
      cbn [app]. symmetry. apply Permutation_middle.
    + rewrite Iw, !alive_app, !alive_cons. reflexivity.
    + intro Hlt. apply Ie. rewrite alive_app, alive_cons, length_app in *. exact Hlt.
    + exact Ic.
    + exact Ir.
    + rewrite Icap, !length_app. reflexivity.
    + exact Iroom.
  - (* CallClose *)
    unfold close in H.
    destruct (closed (taskQueue (pool s))) eqn:Ecl.
    + inversion H; subst. constructor; rewrite ?Ecl; auto.
    + inversion H; subst; clear H.
      constructor;
        cbn [pool goroutines closing accepted executed taskQueue buf cap closed wg
             with_queue workers]; auto.
      * intro Hlt. destruct (Ie Hlt) as [Hc _]. discriminate.
      * discriminate.
  - (* WaitReturns *)
    destruct (closing s) eqn:Ecs; try discriminate.
    destruct (wg (pool s) =? 0) eqn:Ew; [|discriminate].
    apply Z.eqb_eq in Ew.
    inversion H; subst; clear H.
    constructor; cbn [pool goroutines closing accepted executed]; auto.
    intros _. apply Ic. discriminate.
Qed.

Lemma invariant_run (es : list Event) :
  forall s s', invariant s -> run s es = Some s' -> invariant s'.
Proof.
  induction es as [|e es IH]; intros s s' I H; cbn [run] in H.
  - inversion H; subst. exact I.
  - destruct (step s e) as [s1|] eqn:E; [|discriminate].
    apply (IH s1 s'); [|exact H].
    apply (invariant_step s s1 e); assumption.
Qed.

Lemma invariant_reachable (s : System) : reachable s -> invariant s.
Proof.
  intros (n & s0 & es & H0 & Hr).
  apply (invariant_run es s0 s); [|exact Hr].
  apply (invariant_init n). exact H0.
Qed.

Lemma closed_step (s s' : System) (e : Event) :
  closed (taskQueue (pool s)) = true -> step s e = Some s' ->
  closed (taskQueue (pool s')) = true.
Proof.
  intros Hc H.
  destruct e as [task|id|id|id v| |]; cbn [step] in H.
  - unfold Submit, chansend in H. rewrite Hc in H.
    destruct task; inversion H; subst; exact Hc.
  - destruct (nth_error (goroutines s) id) as [[| |]|]; try discriminate.
    destruct (buf (taskQueue (pool s))).
    + rewrite Hc in H. inversion H; subst. exact Hc.
    + inversion H; subst. exact Hc.
  - destruct (nth_error (goroutines s) id) as [[| |]|]; try discriminate.
    inversion H; subst. exact Hc.
  - destruct (nth_error (goroutines s) id) as [[| |]|]; try discriminate.
    inversion H; subst. exact Hc.
  - unfold close in H. rewrite Hc in H. inversion H; subst. exact Hc.
  - destruct (closing s); try discriminate.
    destruct (wg (pool s) =? 0); [|discriminate].
    inversion H; subst. exact Hc.
Qed.

Lemma closed_run (es : list Event) :
  forall s s', closed (taskQueue (pool s)) = true -> run s es = Some s' ->
               closed (taskQueue (pool s')) = true.
Proof.
  induction es as [|e es IH]; intros s s' Hc H; cbn [run] in H.
  - inversion H; subst. exact Hc.
  - destruct (step s e) as [s1|] eqn:E; [|discriminate].
    apply (IH s1 s'); [|exact H].
    apply (closed_step s s1 e); assumption.
Qed.

Lemma Submit_never_blocks (wp : WorkerPool Task) (task : option Task) :
  Submit wp task <> SubmitBlocks.
Proof.
  pose proof (Submit_cases wp task) as H. intro E. rewrite E in H. exact H.
Qed.

Lemma Submit_queues (wp : WorkerPool Task) (t : Task) :
  closed (taskQueue wp) = false ->
  Z.of_nat (List.length (buf (taskQueue wp))) < cap (taskQueue wp) ->
  Submit wp (Some t) =
  SubmitReturns true
    {| workers := workers wp;
       taskQueue := {| buf := buf (taskQueue wp) ++ [t];
                       cap := cap (taskQueue wp); closed := false |};
       wg := wg wp |}.
Proof.
  intros Hopen Hroom. unfold Submit, chansend. rewrite Hopen.
  replace (Z.of_nat (List.length (buf (taskQueue wp))) <? cap (taskQueue wp))
    with true by (symmetry; apply Z.ltb_lt; exact Hroom).
  reflexivity.
Qed.

Lemma Submit_full (wp : WorkerPool Task) (task : option Task) :
  closed (taskQueue wp) = false ->
  cap (taskQueue wp) <= Z.of_nat (List.length (buf (taskQueue wp))) ->
  Submit wp task = SubmitReturns false wp.
Proof.
  intros Hopen Hfull. unfold Submit, chansend. rewrite Hopen.
  destruct task as [t|]; [|reflexivity].
  replace (Z.of_nat (List.length (buf (taskQueue wp))) <? cap (taskQueue wp))
    with false by (symmetry; apply Z.ltb_ge; exact Hfull).
  reflexivity.
Qed.

(** C2 (amended): on a pool whose queue has not been closed, [Submit]
    returns without blocking; it returns false for the [nil] task; it
    returns false, the pool unchanged, when the queue is full; otherwise
    it returns true and the task is at the end of the queue. *)
Theorem Submit_on_open_pool (wp : WorkerPool Task) (task : option Task) :
  closed (taskQueue wp) = false ->
  Submit wp task <> SubmitBlocks
  /\ (task = None -> Submit wp task = SubmitReturns false wp)
  /\ (cap (taskQueue wp) <= Z.of_nat (List.length (buf (taskQueue wp))) ->
      Submit wp task = SubmitReturns false wp)
  /\ (forall t,
        task = Some t ->
        Z.of_nat (List.length (buf (taskQueue wp))) < cap (taskQueue wp) ->
        Submit wp task =
        SubmitReturns true
          {| workers := workers wp;
             taskQueue := {| buf := buf (taskQueue wp) ++ [t];
                             cap := cap (taskQueue wp); closed := false |};
             wg := wg wp |}).
Proof.
  intro Hopen. split; [apply Submit_never_blocks|].
  split; [intros ->; reflexivity|].
  split; [apply Submit_full; exact Hopen|].
  intros t ->. apply Submit_queues. exact Hopen.
Qed.

(** C3: in every state of a pool made by [NewWorkerPool], once [Close]
    has been called no call of [Submit] returns true; and when [Close] has
    returned, the tasks executed to their end are the tasks [Submit]
    accepted, each as often as it was accepted, the queue is empty and
    every worker has left its loop.  A task whose panic was recovered
    counts as executed. *)
Theorem Close_returns_after_accepted_tasks (s : System) :
  reachable s ->
  (closing s <> NotCalled ->
   forall task wp', Submit (pool s) task <> SubmitReturns true wp')
  /\ (closing s = CloseReturned ->
      Permutation (accepted s) (map fst (executed s))
      /\ buf (taskQueue (pool s)) = []
      /\ Forall (fun w => w = Exited) (goroutines s)).
Proof.
  intro Hr. apply invariant_reachable in Hr.
  destruct Hr as [It Iw Ie Ic Ir Icap Iroom].
  split.
  - intros Hc task wp' E.
    pose proof (Submit_cases (pool s) task) as H. rewrite E in H.
    destruct H as (t & _ & Hopen & _). rewrite (Ic Hc) in Hopen. discriminate.
  - intro Hret.
    assert (Ha : alive (goroutines s) = O).
    { specialize (Ir Hret). rewrite Iw in Ir. lia. }
    destruct (alive_zero _ Ha) as [Hall Hrun].
    assert (Hbuf : buf (taskQueue (pool s)) = []).
    { destruct (goroutines s) as [|w ws] eqn:Eg.
      - cbn [List.length] in Icap. rewrite Icap in Iroom.
        destruct (buf (taskQueue (pool s))); [reflexivity|].
        cbn [List.length] in Iroom. lia.
      - apply Ie. rewrite Ha. cbn [List.length]. lia. }
    rewrite Hrun, Hbuf, !app_nil_r in It.
    repeat split; assumption.
Qed.

(** C4: when the task of worker [id] panics with [v], the panic is
    recovered inside the worker: the line with [id] and [v] is logged, the
    worker is back at the receive of its loop and takes the next task of
    the queue when there is one, and nothing else has changed: not the
    other workers and their tasks, not the queue, not the counter of the
    wait group.  While the queue is not closed no worker of a pool made by
    [NewWorkerPool] has left its loop, whatever panicked before. *)
Theorem panic_is_recovered_and_logged (s : System) (id : nat) (t : Task) (v : PanicValue) :
  nth_error (goroutines s) id = Some (Running t) ->
  exists s',
    step s (TaskPanics id v) = Some s'
    /\ nth_error (goroutines s') id = Some Receiving
    /\ logged s' = logged s ++ [(id, v)]
    /\ executed s' = executed s ++ [(t, Recovered v)]
    /\ (forall j, j <> id -> nth_error (goroutines s') j = nth_error (goroutines s) j)
    /\ pool s' = pool s
    /\ closing s' = closing s
    /\ accepted s' = accepted s
    /\ (forall t' rest,
          buf (taskQueue (pool s)) = t' :: rest ->
          exists s'',
            step s' (Receive id) = Some s''
            /\ nth_error (goroutines s'') id = Some (Running t'))
    /\ (reachable s -> closed (taskQueue (pool s)) = false ->
        Forall (fun w => w <> Exited) (goroutines s')).
Proof.
  intro Hn. eexists. cbn [step]. rewrite Hn.
  split; [reflexivity|].
  cbn [goroutines logged executed pool closing accepted].
  split; [apply (update_same id Receiving (Running t)); exact Hn|].
  split; [reflexivity|]. split; [reflexivity|].
  split; [intros j Hj; apply update_other; congruence|].
  split; [reflexivity|]. split; [reflexivity|]. split; [reflexivity|].
  split.
  - intros t' rest Hb. eexists. cbn [step goroutines pool].
    rewrite (update_same id Receiving (Running t) _ Hn), Hb.
    split; [reflexivity|]. cbn [goroutines].
    apply (update_same id (Running t') Receiving).
    apply (update_same id Receiving (Running t)). exact Hn.
  - intros Hr Hopen.
    apply invariant_reachable in Hr.
    apply alive_full.
    destruct (update_split id Receiving _ _ Hn) as (l1 & l2 & Hg & Hu).
    rewrite Hu.
    destruct (Nat.eq_dec (alive (goroutines s)) (List.length (goroutines s))) as [E|E].
    + rewrite Hg in E. rewrite alive_app, alive_cons, length_app in *. exact E.
    + pose proof (alive_le_length (goroutines s)) as Hle.
      destruct (inv_exit s Hr) as [Hc _]; [lia|]. congruence.
Qed.

(** C10: once the queue of a pool is closed it stays closed, and every
    call of [Submit] with a task that is not [nil] panics with "send on
    closed channel"; a call of [Close] leaves the queue closed. *)
Theorem Submit_after_Close_panics (s s1 s' : System) (es : list Event) (t : Task) :
  step s CallClose = Some s1 ->
  run s1 es = Some s' ->
  closed (taskQueue (pool s')) = true
  /\ Submit (pool s') (Some t) = SubmitPanics SendOnClosedChannel.
Proof.
  intros Hc Hr.
  assert (H1 : closed (taskQueue (pool s1)) = true).
  { cbn [step] in Hc. unfold close in Hc.
    destruct (closed (taskQueue (pool s))) eqn:E; inversion Hc; subst.
    - exact E.
    - reflexivity. }
  pose proof (closed_run es s1 s' H1 Hr) as H2.
  split; [exact H2|].
  unfold Submit, chansend. rewrite H2. reflexivity.
Qed.

End PoolFacts.

(** ** The receive loop *)

Section ReceiveLoop.

Context {platform : Platform}.

(** X16: a submitted task ends in one of three ways: it returns, or it
    panics at [url[1]] or at [url[2]]; it raises no other panic.  These are
    the events [TaskReturns] and [TaskPanics] of its worker. *)
Lemma call_outcomes (task : Closure) :
  snd (call task) = Returned tt
  \/ snd (call task) = Panicked (IndexOutOfRange 1 1)
  \/ snd (call task) = Panicked (IndexOutOfRange 2 2).
Proof.
  unfold call.
  destruct (string_dec (data task) "") as [Hd|Hd].
  { left. rewrite processData_skips by (left; exact Hd). reflexivity. }
  destruct (string_dec (strings.TrimSpace (data task)) "") as [Ht|Ht].
  { left. rewrite processData_skips by (right; exact Ht). reflexivity. }
  rewrite processData_converts by assumption.
  set (l := fst (Unmarshal (strings.TrimSpace (data task)) LogData_zero)).
  pose proof (toNginxAccessLog_cases l) as Hc.
  destruct (strings.Split (Request l) " ") as [|a [|b [|c rest]]];
    [contradiction | | |]; rewrite Hc; cbn [snd]; auto.
Qed.

(** C6 (amended): for every datagram read without error the loop submits
    a task, whatever the datagram holds: when the queue is open and has
    room the task is queued, when it is open and full the datagram is
    dropped with a line in the log.  It is the task that looks at the
    datagram: it returns at once, with nothing written, exactly when the
    datagram is empty or is empty once the white space around it is
    trimmed; otherwise it prints the trimmed payload, decodes it and
    converts the record. *)
Theorem every_datagram_is_submitted
    (workerPool : WorkerPool Closure) (datagram : string) (from : UDPAddr) :
  let task := mkClosure (string_take bufferSize datagram) from in
  (closed (taskQueue workerPool) = false ->
   Z.of_nat (List.length (buf (taskQueue workerPool))) < cap (taskQueue workerPool) ->
   serve workerPool (ReadOk datagram from) =
   Continues
     {| workers := workers workerPool;
        taskQueue := {| buf := buf (taskQueue workerPool) ++ [task];
                        cap := cap (taskQueue workerPool); closed := false |};
        wg := wg workerPool |} [])
  /\ (closed (taskQueue workerPool) = false ->
      cap (taskQueue workerPool) <= Z.of_nat (List.length (buf (taskQueue workerPool))) ->
      serve workerPool (ReadOk datagram from) = Continues workerPool [LogPoolFull from])
  /\ (call task = ([], Returned tt)
      <-> data task = "" \/ strings.TrimSpace (data task) = "")
  /\ (data task <> "" -> strings.TrimSpace (data task) <> "" ->
      exists out,
        fst (call task)
        = Stderr banner :: Stdout (strings.TrimSpace (data task)) :: Stderr banner :: out
        /\ snd (call task)
           = match toNginxAccessLog
                     (fst (Unmarshal (strings.TrimSpace (data task)) LogData_zero)) with
             | Returned _ => Returned tt
             | Panicked e => Panicked e
             end).
Proof.
  intro task.
  split; [|split; [|split]].
  - intros Hopen Hroom. unfold serve.
    fold task. rewrite (Submit_queues Closure workerPool task Hopen Hroom). reflexivity.
  - intros Hopen Hfull. unfold serve.
    fold task. rewrite (Submit_full Closure workerPool (Some task) Hopen Hfull). reflexivity.
  - unfold call. split.
    + intro H.
      destruct (string_dec (data task) "") as [Hd|Hd]; [left; exact Hd|].
      destruct (string_dec (strings.TrimSpace (data task)) "") as [Ht|Ht];
        [right; exact Ht|].
      rewrite processData_converts in H by assumption.
      destruct (toNginxAccessLog _); discriminate.
    + apply processData_skips.
  - intros Hd Ht. unfold call.
    rewrite processData_converts by assumption.
    destruct (toNginxAccessLog _); eexists; split; reflexivity.
Qed.

End ReceiveLoop.

(** ** Time.Format *)

Lemma absDate_halves (abs : Z) :
  time.absDate abs =
  let (y, yd) := year_day (abs / time.secondsPerDay) in
  let (mo, d) := month_day (time.isLeap y) yd in
  (y, mo, d).
Proof.
  unfold time.absDate, year_day, month_day. cbv zeta.
  set (y := _ + time.absoluteZeroYear).
  set (yd := _ - 365 * _).
  destruct (time.isLeap y && (yd =? 31 + 29 - 1)); [reflexivity|].
  match goal with |- context [if ?c then _ else _] => destruct c end; reflexivity.
Qed.

Lemma all_from_spec (P : Z -> bool) (count : nat) :
  forall start, all_from P start count = true ->
  forall x, start <= x < start + Z.of_nat count -> P x = true.
Proof.
  induction count as [|n IH]; intros start H x Hx; [lia|].
  cbn [all_from] in H. apply andb_prop in H. destruct H as [H0 H1].
  destruct (Z.eq_dec x start) as [->|Hne]; [exact H0|].
  apply (IH (start + 1) H1). lia.
Qed.

Lemma below_checked (P : Z -> bool) (n : Z) :
  all_from P 0 (Z.to_nat n) = true ->
  forall x, 0 <= x < n -> P x = true.
Proof.
  intros H x Hx. apply (all_from_spec P (Z.to_nat n) 0 H). lia.
Qed.

Lemma month_day_spec (leap : bool) (yd : Z) :
  0 <= yd < (if leap then 366 else 365) ->
  let (mo, d) := month_day leap yd in
  1 <= mo <= 12 /\ 1 <= d <= month_length leap mo
  /\ days_to_month leap mo + d - 1 = yd.
Proof.
  intro H.
  assert (Hok : month_day_ok leap yd = true).
  { destruct leap.
    - apply (below_checked (month_day_ok true) 366); [vm_compute; reflexivity | lia].
    - apply (below_checked (month_day_ok false) 365); [vm_compute; reflexivity | lia]. }
  unfold month_day_ok in Hok.
  destruct (month_day leap yd) as [mo d].
  repeat (apply andb_prop in Hok; destruct Hok as [Hok ?]).
  repeat match goal with
         | H : (_ <=? _) = true |- _ => apply Z.leb_le in H
         | H : (_ =? _) = true |- _ => apply Z.eqb_eq in H
         end.
  lia.
Qed.

Lemma appendInt_two (x : Z) : 0 <= x < 100 -> time.appendInt x 2 = two_digits x.
Proof.
  intro H.
  apply String.eqb_eq.
  apply (below_checked (fun x => String.eqb (time.appendInt x 2) (two_digits x)) 100);
    [vm_compute; reflexivity | lia].
Qed.

Lemma appendInt_four (x : Z) : 0 <= x < 10000 -> time.appendInt x 4 = four_digits x.
Proof.
  intro H.
  apply String.eqb_eq.
  apply (below_checked (fun x => String.eqb (time.appendInt x 4) (four_digits x)) 10000);
    [vm_compute; reflexivity | lia].
Qed.

Lemma absClock_spec (a : Z) :
  0 <= a ->
  let '(h, mi, s) := time.absClock a in
  0 <= h < 24 /\ 0 <= mi < 60 /\ 0 <= s < 60
  /\ h * 3600 + mi * 60 + s = a mod 86400.
Proof.
  intro Ha. unfold time.absClock.
  change time.secondsPerDay with 86400.
  change time.secondsPerHour with 3600.
  change time.secondsPerMinute with 60.
  cbv zeta.
  pose proof (Z.mod_pos_bound a 86400 ltac:(lia)) as Hm.
  set (r := a mod 86400) in *.
  pose proof (Z.div_mod r 3600 ltac:(lia)) as H1.
  pose proof (Z.mod_pos_bound r 3600 ltac:(lia)) as H2.
  set (h := r / 3600) in *.
  pose proof (Z.div_mod (r - h * 3600) 60 ltac:(lia)) as H3.
  pose proof (Z.mod_pos_bound (r - h * 3600) 60 ltac:(lia)) as H4.
  set (mi := (r - h * 3600) / 60) in *.
  lia.
Qed.

Lemma rem_zero (y k : Z) : 0 < k -> (Z.rem y k =? 0) = (y mod k =? 0).
Proof.
  intro Hk.
  destruct (Z.eqb_spec (Z.rem y k) 0) as [Hr|Hr];
    destruct (Z.eqb_spec (y mod k) 0) as [Hm|Hm]; try reflexivity; exfalso.
  - apply Hm. apply Z.mod_divide; [lia|]. apply Z.rem_divide; [lia | exact Hr].
  - apply Hr. apply Z.rem_divide; [lia|]. apply Z.mod_divide; [lia | exact Hm].
Qed.

Lemma leap_year_spec (y : Z) :
  leap_year y = true <-> (y mod 4 = 0 /\ y mod 100 <> 0) \/ y mod 400 = 0.
Proof.
  unfold leap_year.
  destruct (Z.eqb_spec (y mod 4) 0); destruct (Z.eqb_spec (y mod 100) 0);
    destruct (Z.eqb_spec (y mod 400) 0); cbn; split; intro H;
    try reflexivity; try discriminate; try tauto; try (right; assumption);
    try (left; split; assumption).
  all: destruct H as [[? ?]|?]; try contradiction; try discriminate.
Qed.

Lemma isLeap_leap_year (y : Z) : time.isLeap y = leap_year y.
Proof.
  unfold time.isLeap, leap_year.
  rewrite !rem_zero by lia.
  destruct (Z.eqb_spec (y mod 4) 0) as [H4|H4];
    destruct (Z.eqb_spec (y mod 100) 0) as [H100|H100];
    destruct (Z.eqb_spec (y mod 400) 0) as [H400|H400]; cbn; try reflexivity.
  all: exfalso; apply H4; Z.div_mod_to_equations; lia.
Qed.

(** The years before year [400 a + 100 b + 4 c + e + 1], counted in
    cycles of 400, 100, 4 and 1 years, hold [97 a + 24 b + c] leap days,
    and that year is a leap year when it closes a cycle of 4 years that
    does not close one of 100, or closes one of 400. *)
Lemma cycles_leap_days (a b c e : Z) :
  0 <= b <= 3 -> 0 <= c <= 24 -> 0 <= e <= 3 ->
  let y1 := 400 * a + 100 * b + 4 * c + e in
  y1 / 4 - y1 / 100 + y1 / 400 = 97 * a + 24 * b + c
  /\ (leap_year (y1 + 1) = true <-> e = 3 /\ (c <> 24 \/ b = 3)).
Proof.
  intros Hb Hc He y1. split.
  - subst y1. Z.div_mod_to_equations. lia.
  - rewrite leap_year_spec. subst y1. Z.div_mod_to_equations. lia.
Qed.

Lemma quarter_cases (n : Z) :
  0 <= n <= 4 -> n - n / 4 = if n =? 4 then 3 else n.
Proof.
  intro H.
  assert (C : n = 0 \/ n = 1 \/ n = 2 \/ n = 3 \/ n = 4) by lia.
  destruct C as [->|[->|[->|[->| ->]]]]; reflexivity.
Qed.

Lemma year_day_spec (d : Z) :
  0 <= d ->
  let (y, yd) := year_day d in
  0 <= yd < (if leap_year y then 366 else 365)
  /\ days_to_year y + yd = d - epochDays.
Proof.
  intro Hd. unfold year_day. cbv zeta.
  change time.daysPer400Years with 146097.
  change time.daysPer100Years with 36524.
  change time.daysPer4Years with 1461.
  change time.absoluteZeroYear with (-292277022399).
  rewrite !Z.shiftr_div_pow2 by lia. change (2 ^ 2) with 4.
  (* cycles of 400 years *)
  set (n400 := d / 146097).
  set (d1 := d - 146097 * n400).
  assert (Hd1 : 0 <= d1 < 146097 /\ d = 146097 * n400 + d1).
  { subst d1 n400. Z.div_mod_to_equations. lia. }
  clearbody d1 n400. destruct Hd1 as [Hd1 Ed].
  (* cycles of 100 years *)
  set (q100 := d1 / 36524).
  assert (Hq100 : 0 <= q100 <= 4 /\ 36524 * q100 <= d1 < 36524 * q100 + 36524).
  { subst q100. Z.div_mod_to_equations. lia. }
  clearbody q100. destruct Hq100 as [Hq100 Bq100].
  rewrite (quarter_cases q100 Hq100).
  set (b := if q100 =? 4 then 3 else q100).
  assert (Hb : 0 <= b <= 3 /\ 36524 * b <= d1 <= 36524 * b + 36524
               /\ (d1 = 36524 * b + 36524 -> b = 3)).
  { subst b. destruct (Z.eqb_spec q100 4); lia. }
  clearbody b. clear q100 Hq100 Bq100. destruct Hb as (Hb & Bb & Lb).
  set (d2 := d1 - 36524 * b).
  assert (Hd2 : 0 <= d2 <= 36524 /\ d1 = 36524 * b + d2) by (subst d2; lia).
  clearbody d2. destruct Hd2 as [Hd2 Ed1].
  (* cycles of 4 years *)
  set (c := d2 / 1461).
  set (d3 := d2 - 1461 * c).
  assert (Hc : 0 <= c <= 24 /\ 0 <= d3 < 1461 /\ d2 = 1461 * c + d3).
  { subst d3 c. Z.div_mod_to_equations. lia. }
  clearbody d3 c. destruct Hc as (Hc & Hd3 & Ed2).
  (* years *)
  set (q1 := d3 / 365).
  assert (Hq1 : 0 <= q1 <= 4 /\ 365 * q1 <= d3 < 365 * q1 + 365).
  { subst q1. Z.div_mod_to_equations. lia. }
  clearbody q1. destruct Hq1 as [Hq1 Bq1].
  rewrite (quarter_cases q1 Hq1).
  set (e := if q1 =? 4 then 3 else q1).
  assert (He : 0 <= e <= 3 /\ 365 * e <= d3 <= 365 * e + 365
               /\ (d3 = 365 * e + 365 -> e = 3)).
  { subst e. destruct (Z.eqb_spec q1 4); lia. }
  clearbody e. clear q1 Hq1 Bq1. destruct He as (He & Be & Le).
  (* the year *)
  set (a := n400 - 730692556).
  replace (400 * n400 + 100 * b + 4 * c + e + -292277022399)
    with (400 * a + 100 * b + 4 * c + e + 1) by (subst a; lia).
  destruct (cycles_leap_days a b c e Hb Hc He) as [Hdays Hleap].
  cbv zeta in Hdays, Hleap.
  split.
  - destruct (leap_year (400 * a + 100 * b + 4 * c + e + 1)) eqn:El.
    + lia.
    + assert (Hn : ~ (e = 3 /\ (c <> 24 \/ b = 3))).
      { intro H. apply Hleap in H. discriminate. }
      lia.
  - unfold days_to_year, epochDays.
    replace (400 * a + 100 * b + 4 * c + e + 1 - 1)
      with (400 * a + 100 * b + 4 * c + e) by lia.
    rewrite Hdays. subst a. lia.
Qed.

Lemma days_to_year_succ (y : Z) :
  days_to_year (y + 1) = days_to_year y + (if leap_year y then 366 else 365).
Proof.
  unfold days_to_year.
  replace (y + 1 - 1) with y by lia.
  destruct (leap_year y) eqn:E.
  - apply leap_year_spec in E. Z.div_mod_to_equations. lia.
  - assert (N : ~ ((y mod 4 = 0 /\ y mod 100 <> 0) \/ y mod 400 = 0)).
    { intro H. apply leap_year_spec in H. congruence. }
    Z.div_mod_to_equations. lia.
Qed.

Lemma days_to_year_mono (y y' : Z) : y <= y' -> days_to_year y <= days_to_year y'.
Proof.
  intro H. unfold days_to_year. Z.div_mod_to_equations. lia.
Qed.

Lemma absoluteEpoch_days : absoluteEpoch = 86400 * epochDays.
Proof. reflexivity. Qed.

(** In the years 0 to 9999 [Format] writes the local date and time of the
    instant, in four, two and two digits and thrice two digits. *)
Lemma Format_renders (sec off : Z) :
  -62167219200 <= sec + off <= 253402300799 ->
  renders (time.Format (time.mkTime sec off)) (sec + off).
Proof.
  intro Hrange.
  set (L := sec + off) in *.
  unfold time.Format, time.abs. cbn [time.unixSec time.zoneOffset].
  fold absoluteEpoch. fold L.
  assert (Ha : (L + absoluteEpoch) mod 2 ^ 64 = L + absoluteEpoch).
  { apply Z.mod_small. rewrite absoluteEpoch_days. unfold epochDays.
    change (2 ^ 64) with 18446744073709551616. lia. }
  rewrite Ha. clear Ha.
  assert (Hdiv : (L + absoluteEpoch) / time.secondsPerDay = epochDays + L / 86400
                 /\ (L + absoluteEpoch) mod 86400 = L mod 86400).
  { rewrite absoluteEpoch_days. change time.secondsPerDay with 86400.
    Z.div_mod_to_equations. lia. }
  destruct Hdiv as [Hdiv Hmod].
  rewrite absDate_halves, Hdiv.
  assert (Hnn : 0 <= epochDays + L / 86400).
  { unfold epochDays. Z.div_mod_to_equations. lia. }
  pose proof (year_day_spec (epochDays + L / 86400) Hnn) as Hy.
  destruct (year_day (epochDays + L / 86400)) as [y yd].
  destruct Hy as [Hyd Hdays].
  rewrite isLeap_leap_year.
  pose proof (month_day_spec (leap_year y) yd) as Hm.
  assert (Hyd' : 0 <= yd < (if leap_year y then 366 else 365)) by exact Hyd.
  specialize (Hm Hyd').
  destruct (month_day (leap_year y) yd) as [mo d].
  destruct Hm as (Hmo & Hd & Hsum).
  assert (Hnna : 0 <= L + absoluteEpoch).
  { rewrite absoluteEpoch_days. unfold epochDays. lia. }
  pose proof (absClock_spec (L + absoluteEpoch) Hnna) as Hc.
  destruct (time.absClock (L + absoluteEpoch)) as [[h mi] s].
  destruct Hc as (Hh & Hmi & Hs & Hclock).
  rewrite Hmod in Hclock.
  assert (Hyear : 0 <= y <= 9999).
  { pose proof (days_to_year_succ y) as Hsucc.
    assert (Hlo : -719528 <= L / 86400 <= 2932896) by (Z.div_mod_to_equations; lia).
    assert (H0 : days_to_year 0 = -719528) by reflexivity.
    assert (H1 : days_to_year 10000 = 2932897) by reflexivity.
    split.
    - destruct (Z_lt_ge_dec y 0) as [Hneg|]; [|lia].
      pose proof (days_to_year_mono (y + 1) 0 ltac:(lia)). lia.
    - destruct (Z_lt_ge_dec 9999 y) as [Hbig|]; [|lia].
      pose proof (days_to_year_mono 10000 y ltac:(lia)). lia. }
  assert (Hdlen : month_length (leap_year y) mo <= 31).
  { unfold month_length.
    destruct (mo =? 2); [destruct (leap_year y); lia|].
    destruct ((mo =? 4) || (mo =? 6) || (mo =? 9) || (mo =? 11)); lia. }
  exists y, mo, d, h, mi, s.
  repeat split; try lia.
  - unfold civil_seconds.
    pose proof (Z.div_mod L 86400 ltac:(lia)). lia.
  - rewrite (appendInt_four y) by lia.
    rewrite !appendInt_two by lia.
    reflexivity.
Qed.

(** [float64_trunc] discards the fraction: the magnitude of the result is
    the largest integer that is not above the magnitude of the float, and
    the sign is kept. *)
Lemma float64_trunc_finite (s : bool) (m : positive) (e t : Z) :
  float64_trunc (S754_finite s m e) = Some t ->
  (if s then t <= 0 else 0 <= t)
  /\ (0 <= e -> Z.abs t = Z.pos m * 2 ^ e)
  /\ (e < 0 -> Z.abs t * 2 ^ (- e) <= Z.pos m < (Z.abs t + 1) * 2 ^ (- e)).
Proof.
  unfold float64_trunc. intro H.
  set (p := Z.pos m) in *. assert (Hpos : 0 < p) by (subst p; lia). clearbody p.
  assert (Ht : t = if s then - (if 0 <=? e then p * 2 ^ e else p / 2 ^ (- e))
                   else (if 0 <=? e then p * 2 ^ e else p / 2 ^ (- e)))
    by congruence.
  clear H. subst t.
  destruct (Z.leb_spec 0 e) as [He|He].
  - assert (Hp : 0 < 2 ^ e) by (apply Z.pow_pos_nonneg; lia).
    assert (Hm : 0 < p * 2 ^ e) by nia.
    destruct s; cbv iota; repeat split; lia.
  - assert (Hp : 0 < 2 ^ (- e)) by (apply Z.pow_pos_nonneg; lia).
    pose proof (Z.div_mod p (2 ^ (- e)) ltac:(lia)) as Hdm.
    pose proof (Z.mod_pos_bound p (2 ^ (- e)) Hp) as Hb.
    assert (Hq : 0 <= p / 2 ^ (- e)) by (apply Z.div_pos; lia).
    set (q := p / 2 ^ (- e)) in *.
    set (k := 2 ^ (- e)) in *.
    destruct s; cbv iota; repeat split; try lia;
      rewrite ?Z.abs_opp, ?Z.abs_eq by lia; nia.
Qed.

Section DateTime.

Context {platform : Platform}.

(** C8 (amended): when the conversion returns a row and the timestamp,
    its fraction discarded, is an [int64] that falls, in the zone of the
    process, in the years 0000 to 9999, the date of the row is that
    instant of local time written YYYY-MM-DD HH:MM:SS. *)
Theorem datetime_renders_timestamp (l : LogData) (r : NginxAccessLog) (t : Z) :
  toNginxAccessLog l = Returned r ->
  float64_trunc (Date l) = Some t ->
  minInt64 <= t <= maxInt64 ->
  -62167219200 <= t + Local t <= 253402300799 ->
  renders (TimeIso8601 r) (t + Local t).
Proof.
  intros Hr Ht Hint Hrange.
  apply toNginxAccessLog_returns in Hr.
  destruct Hr as (a & b & c & rest & _ & ->).
  cbn [row_of TimeIso8601].
  unfold int64_of_float64. rewrite Ht.
  replace ((minInt64 <=? t) && (t <=? maxInt64)) with true.
  - unfold time.Unix. apply Format_renders. exact Hrange.
  - symmetry. apply andb_true_intro. split; apply Z.leb_le; lia.
Qed.

End DateTime.

(** ** More on the worker pool *)

Section PoolHistoryFacts.

Variable Task : Type.
Variable PanicValue : Type.

Local Abbreviation System := (System Task PanicValue).
Local Abbreviation Event := (Event Task PanicValue).

Lemma recovered_app (l1 l2 : list (Task * Outcome PanicValue)) :
  recovered (l1 ++ l2) = recovered l1 ++ recovered l2.
Proof. unfold recovered. apply flat_map_app. Qed.

Lemma history_init (n : Z) (s0 : System) :
  NewWorkerPool n = Some s0 -> history s0.
Proof.
  unfold NewWorkerPool. intro H.
  destruct ((0 <=? n) && (n * 100 <=? maxInt64)) eqn:E; [|discriminate].
  apply andb_prop in E. destruct E as [E1 _]. apply Z.leb_le in E1.
  inversion H; subst; clear H.
  constructor; cbn [pool goroutines accepted executed logged taskQueue buf workers].
  - exists []. reflexivity.
  - rewrite repeat_length. lia.
  - reflexivity.
  - constructor.
Qed.

Lemma history_step (s s' : System) (e : Event) :
  history s -> step s e = Some s' -> history s'.
Proof.
  intros [[started Hf] Hw Hl Hi] H.
  destruct e as [task|id|id|id v| |]; cbn [step] in H.
  - pose proof (Submit_cases Task (pool s) task) as Hs.
    destruct (Submit (pool s) task) as [[|] wp'|err|].
    + destruct Hs as (t & -> & _ & _ & ->).
      inversion H; subst; clear H.
      constructor; cbn [pool goroutines accepted executed logged taskQueue buf workers];
        auto.
      exists started. rewrite Hf, app_assoc. reflexivity.
    + inversion H; subst. constructor; eauto.
    + inversion H; subst. constructor; eauto.
    + discriminate.
  - destruct (nth_error (goroutines s) id) as [[|t0|]|] eqn:En; try discriminate.
    destruct (buf (taskQueue (pool s))) as [|t rest] eqn:Eb.
    + destruct (closed (taskQueue (pool s))); [|discriminate].
      inversion H; subst; clear H.
      constructor; cbn [pool goroutines accepted executed logged taskQueue buf workers];
        rewrite ?update_length; auto.
      exists started. rewrite Eb. exact Hf.
    + inversion H; subst; clear H.
      constructor;
        cbn [pool goroutines accepted executed logged taskQueue buf workers with_queue];
        rewrite ?update_length; auto.
      exists (started ++ [t]). rewrite Hf, <- app_assoc. reflexivity.
  - destruct (nth_error (goroutines s) id) as [[|t|]|] eqn:En; try discriminate.
    inversion H; subst; clear H.
    constructor; cbn [pool goroutines accepted executed logged];
      rewrite ?update_length; eauto.
    rewrite recovered_app. cbn. rewrite app_nil_r. exact Hl.
  - destruct (nth_error (goroutines s) id) as [[|t|]|] eqn:En; try discriminate.
    inversion H; subst; clear H.
    constructor; cbn [pool goroutines accepted executed logged];
      rewrite ?update_length; eauto.
    + rewrite map_app, recovered_app, Hl. reflexivity.
    + apply Forall_app. split; [exact Hi|].
      constructor; [|constructor]. cbn [fst].
      apply nth_error_Some. congruence.
  - unfold close in H.
    destruct (closed (taskQueue (pool s))).
    + inversion H; subst. constructor; eauto.
    + inversion H; subst; clear H.
      constructor; cbn [pool goroutines accepted executed logged taskQueue buf workers
                        with_queue]; eauto.
  - destruct (closing s); try discriminate.
    destruct (wg (pool s) =? 0); [|discriminate].
    inversion H; subst; clear H.
    constructor; cbn [pool goroutines accepted executed logged]; eauto.
Qed.

Lemma history_run (es : list Event) :
  forall s s', history s -> run s es = Some s' -> history s'.
Proof.
  induction es as [|e es IH]; intros s s' I H; cbn [run] in H.
  - inversion H; subst. exact I.
  - destruct (step s e) as [s1|] eqn:E; [|discriminate].
    apply (IH s1 s'); [|exact H].
    apply (history_step s s1 e); assumption.
Qed.

Lemma history_reachable (s : System) : reachable s -> history s.
Proof.
  intros (n & s0 & es & H0 & Hr).
  apply (history_run es s0 s); [|exact Hr].
  apply (history_init n). exact H0.
Qed.

(** X1: in every state of a pool made by [NewWorkerPool], the tasks
    accepted by [Submit] are, each as often as it was accepted, the tasks
    executed to their end, the tasks being executed and the tasks in the
    queue: no task is lost, none is executed twice, none is executed that
    was not accepted. *)
Theorem tasks_are_conserved (s : System) :
  reachable s ->
  Permutation (accepted s)
    (map fst (executed s) ++ running (goroutines s) ++ buf (taskQueue (pool s))).
Proof.
  intro Hr. apply invariant_reachable in Hr. destruct Hr as [It _ _ _ _ _ _]. exact It.
Qed.

(** X2: a pool made by [NewWorkerPool] has as many worker goroutines as
    [workers] says, its queue has room for a hundred tasks per worker, and
    never holds more. *)
Theorem queue_is_bounded (s : System) :
  reachable s ->
  Z.of_nat (List.length (goroutines s)) = workers (pool s)
  /\ cap (taskQueue (pool s)) = workers (pool s) * 100
  /\ Z.of_nat (List.length (buf (taskQueue (pool s)))) <= workers (pool s) * 100.
Proof.
  intro Hr.
  pose proof (invariant_reachable _ _ s Hr) as I.
  pose proof (history_reachable s Hr) as Hh.
  destruct I as [_ _ _ _ _ Icap Iroom]. destruct Hh as [_ Hw _ _].
  rewrite Hw. repeat split; lia.
Qed.

(** X3: the counter of the wait group is the number of workers that have
    not left their loop: it starts at [workers], is never negative (no
    [wg.Done()] panics) and is zero exactly when all workers have left. *)
Theorem wait_group_counts_workers (s : System) :
  reachable s ->
  wg (pool s) = Z.of_nat (alive (goroutines s))
  /\ 0 <= wg (pool s) <= workers (pool s)
  /\ (wg (pool s) = 0 <-> Forall (fun w => w = Exited) (goroutines s)).
Proof.
  intro Hr.
  pose proof (invariant_reachable _ _ s Hr) as I.
  pose proof (history_reachable s Hr) as Hh.
  destruct I as [_ Iw _ _ _ _ _]. destruct Hh as [_ Hw _ _].
  pose proof (alive_le_length Task (goroutines s)) as Hle.
  split; [exact Iw|]. split; [lia|].
  split.
  - intro H0. apply (alive_zero Task). lia.
  - intro Hall. rewrite Iw.
    assert (Ha : alive (goroutines s) = O).
    { clear - Hall. induction (goroutines s) as [|w ws IH]; [reflexivity|].
      inversion Hall; subst. rewrite alive_cons. apply IH. assumption. }
    lia.
Qed.

(** X4: the queue is first in, first out: the tasks in the queue are the
    last accepted ones, in the order of their acceptance, and the tasks
    accepted before them are those that have started (executed or
    running). *)
Theorem queue_is_fifo (s : System) :
  reachable s ->
  exists started,
    accepted s = started ++ buf (taskQueue (pool s))
    /\ Permutation started (map fst (executed s) ++ running (goroutines s)).
Proof.
  intro Hr.
  pose proof (invariant_reachable _ _ s Hr) as I.
  pose proof (history_reachable s Hr) as Hh.
  destruct Hh as [[started Hf] _ _ _].
  exists started. split; [exact Hf|].
  destruct I as [Hp _ _ _ _ _ _].
  rewrite Hf, app_assoc in Hp.
  apply Permutation_app_inv_r in Hp. exact Hp.
Qed.


Lemma worker_census (gs : list (Worker Task)) :
  (exists id t, nth_error gs id = Some (Running t))
  \/ (exists id, nth_error gs id = Some Receiving)
  \/ alive gs = O.
Proof.
  induction gs as [|w gs IH].
  - right. right. reflexivity.
  - destruct w as [|t|].
    + right. left. exists O. reflexivity.
    + left. exists O, t. reflexivity.
    + destruct IH as [(id & t & H)|[(id & H)|H]].
      * left. exists (S id), t. exact H.
      * right. left. exists (S id). exact H.
      * right. right. rewrite alive_cons. exact H.
Qed.

Lemma drain_from (m : nat) :
  forall s : System,
    (work_left s <= m)%nat -> invariant s -> closing s = InWait ->
    exists es s',
      run s es = Some s'
      /\ closing s' = CloseReturned
      /\ accepted s' = accepted s
      /\ forallb draining es = true.
Proof.
  induction m as [|m IH]; intros s Hm I Hc.
  - assert (Ha : alive (goroutines s) = O) by (unfold work_left in Hm; lia).
    destruct I as [_ Iw _ _ _ _ _].
    exists [WaitReturns]. eexists. cbn [run step]. rewrite Hc.
    replace (wg (pool s) =? 0) with true by (symmetry; apply Z.eqb_eq; lia).
    repeat split; reflexivity.
  - destruct (worker_census (goroutines s)) as [(id & t & Hn)|[(id & Hn)|Ha]].
    + (* a running task returns *)
      destruct (update_split id Receiving _ _ Hn) as (l1 & l2 & Hg & Hu).
      destruct (step s (TaskReturns id)) as [s1|] eqn:Es;
        [|cbn [step] in Es; rewrite Hn in Es; discriminate].
      pose proof (invariant_step _ _ s s1 _ I Es) as I1.
      cbn [step] in Es. rewrite Hn in Es. inversion Es as [E1]; clear Es.
      destruct (IH s1) as (es & s' & Hr & Hc' & Hacc & Hd);
        [| exact I1 | subst s1; exact Hc |].
      { subst s1. unfold work_left in *. cbn [pool goroutines] in *.
        rewrite Hu. rewrite Hg in Hm.
        rewrite !running_app, !alive_app, !alive_cons in *.
        cbn [running flat_map] in *. rewrite ?length_app in *.
        cbn [List.length app] in *. lia. }
      exists (TaskReturns id :: es), s'. cbn [run step]. rewrite Hn, E1.
      subst s1. repeat split; assumption.
    + (* a worker receives *)
      destruct (step s (Receive id)) as [s1|] eqn:Es.
      2:{ exfalso. cbn [step] in Es. rewrite Hn in Es.
          destruct (buf (taskQueue (pool s))); [|discriminate].
          destruct I as [_ _ _ Ic _ _ _].
          rewrite Ic in Es by (rewrite Hc; discriminate). discriminate. }
      pose proof (invariant_step _ _ s s1 _ I Es) as I1.
      assert (Hs1 : closing s1 = InWait /\ accepted s1 = accepted s
                    /\ (work_left s1 < work_left s)%nat).
      { cbn [step] in Es. rewrite Hn in Es.
        destruct (buf (taskQueue (pool s))) as [|t rest] eqn:Eb.
        - destruct (closed (taskQueue (pool s))); [|discriminate].
          destruct (update_split id Exited _ _ Hn) as (l1 & l2 & Hg & Hu).
          inversion Es; subst s1; clear Es.
          split; [exact Hc|]. split; [reflexivity|].
          unfold work_left. cbn [pool goroutines taskQueue].
          rewrite Eb, Hu, Hg.
          rewrite !running_app, !alive_app, !alive_cons.
          cbn [running flat_map]. rewrite ?length_app.
          cbn [List.length app]. lia.
        - destruct (update_split id (Running t) _ _ Hn) as (l1 & l2 & Hg & Hu).
          inversion Es; subst s1; clear Es.
          split; [exact Hc|]. split; [reflexivity|].
          unfold work_left. cbn [pool goroutines taskQueue with_queue buf].
          rewrite Eb, Hu, Hg.
          rewrite !running_app, !alive_app, !alive_cons.
          cbn [running flat_map]. rewrite ?length_app.
          cbn [List.length app]. rewrite ?length_app. lia. }
      destruct Hs1 as (Hc1 & Hacc1 & Hlt).
      destruct (IH s1) as (es & s' & Hr & Hc' & Hacc & Hd);
        [lia | exact I1 | exact Hc1 |].
      exists (Receive id :: es), s'. cbn [run]. rewrite Es.
      repeat split; try assumption. congruence.
    + (* every worker has left *)
      destruct I as [_ Iw _ _ _ _ _].
      exists [WaitReturns]. eexists. cbn [run step]. rewrite Hc.
      replace (wg (pool s) =? 0) with true by (symmetry; apply Z.eqb_eq; lia).
      repeat split; reflexivity.
Qed.

(** X6: [Close] can always return: from every state of a pool made by
    [NewWorkerPool] in which [Close] waits, the workers alone (each
    running task returning, each worker receiving until the queue is
    empty) reach a state in which [Close] has returned, no task was
    accepted meanwhile, and every accepted task has been executed. *)
Theorem Close_can_return (s : System) :
  reachable s -> closing s = InWait ->
  exists es s',
    run s es = Some s'
    /\ forallb draining es = true
    /\ closing s' = CloseReturned
    /\ accepted s' = accepted s
    /\ Permutation (accepted s) (map fst (executed s')).
Proof.
  intros Hr Hc.
  pose proof (invariant_reachable _ _ s Hr) as I.
  destruct (drain_from (work_left s) s (Nat.le_refl _) I Hc)
    as (es & s' & Hrun & Hc' & Hacc & Hd).
  exists es, s'. repeat split; try assumption.
  pose proof (invariant_run _ _ es s s' I Hrun) as [It Iw Ie _ Ir Icap Iroom].
  assert (Ha : alive (goroutines s') = O).
  { specialize (Ir Hc'). lia. }
  destruct (alive_zero _ _ Ha) as [_ Hrun0].
  assert (Hbuf : buf (taskQueue (pool s')) = []).
  { destruct (goroutines s') as [|w ws] eqn:Eg.
    - cbn [List.length] in Icap. rewrite Icap in Iroom.
      destruct (buf (taskQueue (pool s'))); [reflexivity|].
      cbn [List.length] in Iroom. lia.
    - apply Ie. rewrite Ha. cbn [List.length]. lia. }
  rewrite Hrun0, Hbuf, !app_nil_r, Hacc in It. exact It.
Qed.

(** X7: [Close] may be called once: after a call of [Close], whatever
    happens next, another call panics with "close of closed channel" and
    changes nothing. *)
Theorem second_Close_panics (s s1 s' : System) (es : list Event) :
  step s CallClose = Some s1 ->
  run s1 es = Some s' ->
  close (taskQueue (pool s')) = Panicked CloseOfClosedChannel
  /\ step s' CallClose = Some s'.
Proof.
  intros Hc Hr.
  assert (H1 : closed (taskQueue (pool s1)) = true).
  { cbn [step] in Hc. unfold close in Hc.
    destruct (closed (taskQueue (pool s))) eqn:E; inversion Hc; subst.
    - exact E.
    - reflexivity. }
  pose proof (closed_run _ _ es s1 s' H1 Hr) as H2.
  cbn [step]. unfold close. rewrite H2. split; reflexivity.
Qed.

Lemma open_step (s s' : System) (e : Event) :
  closed (taskQueue (pool s)) = false /\ closing s = NotCalled ->
  no_close [e] = true -> step s e = Some s' ->
  closed (taskQueue (pool s')) = false /\ closing s' = NotCalled.
Proof.
  intros [Ho Hn] He H.
  destruct e as [task|id|id|id v| |]; cbn [step] in H; try discriminate.
  - pose proof (Submit_cases Task (pool s) task) as Hs.
    destruct (Submit (pool s) task) as [[|] wp'|err|]; try discriminate.
    + destruct Hs as (t & -> & _ & _ & ->). inversion H; subst. split; [reflexivity|exact Hn].
    + inversion H; subst. split; assumption.
    + inversion H; subst. split; assumption.
  - destruct (nth_error (goroutines s) id) as [[| |]|]; try discriminate.
    destruct (buf (taskQueue (pool s))).
    + rewrite Ho in H. discriminate.
    + inversion H; subst. split; assumption.
  - destruct (nth_error (goroutines s) id) as [[| |]|]; try discriminate.
    inversion H; subst. split; assumption.
  - destruct (nth_error (goroutines s) id) as [[| |]|]; try discriminate.
    inversion H; subst. split; assumption.
  - rewrite Hn in H. discriminate.
Qed.

Lemma open_run (es : list Event) :
  forall s s',
    closed (taskQueue (pool s)) = false /\ closing s = NotCalled ->
    no_close es = true -> run s es = Some s' ->
    closed (taskQueue (pool s')) = false /\ closing s' = NotCalled.
Proof.
  induction es as [|e es IH]; intros s s' Ho Hn H; cbn [run] in H.
  - inversion H; subst. exact Ho.
  - destruct (step s e) as [s1|] eqn:E; [|discriminate].
    apply (IH s1 s'); [| |exact H].
    + apply (open_step s s1 e); [exact Ho | | exact E].
      destruct e; try reflexivity. discriminate.
    + destruct e; try exact Hn. discriminate.
Qed.

(** X8: queued work is never stuck: in every state of a pool made by
    [NewWorkerPool] whose queue holds a task, a worker can make a step: one
    is at its receive and takes the first task of the queue, or one is
    inside a task, which may return. *)
Theorem queued_work_is_never_stuck (s : System) (t : Task) (rest : list Task) :
  reachable s -> buf (taskQueue (pool s)) = t :: rest ->
  (exists id s', step s (Receive id) = Some s'
                 /\ nth_error (goroutines s') id = Some (Running t)
                 /\ buf (taskQueue (pool s')) = rest)
  \/ (exists id s', step s (TaskReturns id) = Some s'
                    /\ nth_error (goroutines s') id = Some Receiving
                    /\ buf (taskQueue (pool s')) = t :: rest).
Proof.
  intros Hr Hb. apply invariant_reachable in Hr.
  destruct Hr as [_ _ Ie _ _ Ic Iroom].
  destruct (worker_census (goroutines s)) as [(id & t' & H)|[(id & H)|H]].
  - right. exists id. eexists. cbn [step]. rewrite H.
    split; [reflexivity|]. cbn [goroutines pool]. split; [|exact Hb].
    eapply update_same; exact H.
  - left. exists id. eexists. cbn [step]. rewrite H, Hb.
    split; [reflexivity|]. cbn [goroutines pool with_queue taskQueue buf].
    split; [|reflexivity].
    eapply update_same; exact H.
  - exfalso.
    destruct (goroutines s) as [|w gs] eqn:Eg.
    + rewrite Hb in Iroom. rewrite Ic in Iroom. cbn [List.length] in Iroom. lia.
    + assert (Hlt : (alive (w :: gs) < List.length (w :: gs))%nat)
        by (rewrite H; cbn [List.length]; lia).
      destruct (Ie Hlt) as [_ He]. rewrite Hb in He. discriminate.
Qed.

End PoolHistoryFacts.

(** ** More on the receive loop *)

Section ServerFacts.

Variable PanicValue : Type.

(** X9: as long as [Close] has not been called (and [main] calls it only
    after the loop) the receive loop goes on for ever: whatever was read,
    and whatever the workers have done, a turn of the loop neither panics
    nor blocks; a read error changes nothing, and a datagram is one call
    of [Submit], after which the queue is still open. *)
Theorem receive_loop_goes_on
    (n : Z) (s0 s : System Closure PanicValue) (es : list (Event Closure PanicValue))
    (r : ReadResult) :
  NewWorkerPool n = Some s0 -> no_close es = true -> run s0 es = Some s ->
  exists wp' log,
    serve (pool s) r = Continues wp' log
    /\ match r with
       | ReadFails => wp' = pool s /\ log = [LogReadFailed]
       | ReadOk datagram from =>
           exists s',
             step s (CallSubmit (Some (mkClosure (string_take bufferSize datagram) from)))
             = Some s'
             /\ pool s' = wp'
             /\ closed (taskQueue wp') = false
       end.
Proof.
  intros H0 Hn Hr.
  assert (Ho : closed (taskQueue (pool s)) = false /\ closing s = NotCalled).
  { apply (open_run _ _ es s0 s); [|exact Hn|exact Hr].
    unfold NewWorkerPool in H0.
    destruct ((0 <=? n) && (n * 100 <=? maxInt64)); [|discriminate].
    inversion H0; subst. split; reflexivity. }
  destruct Ho as [Ho _].
  destruct r as [datagram from|].
  - unfold serve. cbn [step].
    set (task := mkClosure (string_take bufferSize datagram) from).
    pose proof (Submit_cases Closure (pool s) (Some task)) as Hs.
    destruct (Submit (pool s) (Some task)) as [[|] wp'|err|].
    + destruct Hs as (t & Ht & _ & _ & ->).
      eexists. eexists. split; [reflexivity|].
      eexists. split; [reflexivity|]. split; reflexivity.
    + destruct Hs as [-> _].
      eexists. eexists. split; [reflexivity|].
      eexists. split; [reflexivity|]. split; [reflexivity | exact Ho].
    + destruct Hs as (_ & _ & Hc). congruence.
    + contradiction.
  - exists (pool s), [LogReadFailed]. split; [reflexivity|]. split; reflexivity.
Qed.

End ServerFacts.

(** ** More on processData *)

Lemma string_app_assoc (a b c : string) :
  ((a ++ b) ++ c)%string = (a ++ (b ++ c))%string.
Proof. induction a as [|x a IH]; cbn; [|rewrite IH]; reflexivity. Qed.

Lemma string_rev_onto_app (s acc : string) :
  string_rev_onto s acc = (string_rev s ++ acc)%string.
Proof.
  unfold string_rev. revert acc.
  induction s as [|c s IH]; intro acc; cbn [string_rev_onto]; [reflexivity|].
  rewrite IH, (IH (String c "")).
  rewrite string_app_assoc. reflexivity.
Qed.

Lemma string_app_nil_r (s : string) : (s ++ "")%string = s.
Proof. induction s as [|c s IH]; cbn; [|rewrite IH]; reflexivity. Qed.

Lemma string_rev_app (a b : string) :
  string_rev (a ++ b) = (string_rev b ++ string_rev a)%string.
Proof.
  induction a as [|c a IH]; cbn [String.append].
  - rewrite string_app_nil_r. reflexivity.
  - unfold string_rev at 1 3. cbn [string_rev_onto].
    rewrite !string_rev_onto_app, IH, string_app_assoc. reflexivity.
Qed.

Lemma string_rev_involutive (s : string) : string_rev (string_rev s) = s.
Proof.
  induction s as [|c s IH]; [reflexivity|].
  unfold string_rev at 2. cbn [string_rev_onto].
  rewrite string_rev_onto_app, string_rev_app, IH. reflexivity.
Qed.

Lemma blank_app (a b : string) : blank (a ++ b) = blank a && blank b.
Proof.
  induction a as [|c a IH]; cbn [String.append blank]; [reflexivity|].
  rewrite IH, andb_assoc. reflexivity.
Qed.

Lemma blank_rev (s : string) : blank (string_rev s) = blank s.
Proof.
  induction s as [|c s IH]; [reflexivity|].
  unfold string_rev. cbn [string_rev_onto].
  rewrite string_rev_onto_app, blank_app, IH. cbn [blank].
  rewrite andb_true_r, andb_comm. reflexivity.
Qed.

Lemma string_length_app (a b : string) :
  String.length (a ++ b) = (String.length a + String.length b)%nat.
Proof. induction a as [|c a IH]; cbn; [|rewrite IH]; reflexivity. Qed.

Lemma string_rev_length (s : string) :
  String.length (string_rev s) = String.length s.
Proof.
  induction s as [|c s IH]; [reflexivity|].
  unfold string_rev. cbn [string_rev_onto].
  rewrite string_rev_onto_app, string_length_app, IH. cbn. lia.
Qed.

(** Trimming takes a blank head off a text that starts with no white
    space. *)
Lemma trim_blank_head (width : string -> nat) :
  (forall c r, strings.asciiSpace (byte_val c) = true -> width (String c r) = 1%nat) ->
  forall ws rest fuel,
    blank ws = true -> width rest = O -> (String.length ws <= fuel)%nat ->
    strings.trim_with width fuel (ws ++ rest) = rest.
Proof.
  intros Hw ws. induction ws as [|c ws IH]; intros rest fuel Hb H0 Hf.
  - cbn [String.append]. destruct fuel; cbn [strings.trim_with]; [reflexivity|].
    rewrite H0. reflexivity.
  - cbn [blank] in Hb. apply andb_prop in Hb. destruct Hb as [Hc Hb].
    destruct fuel as [|fuel]; [cbn in Hf; lia|].
    cbn [String.append strings.trim_with].
    rewrite (Hw c _ Hc). cbn [string_drop].
    apply IH; [exact Hb | exact H0 | cbn in Hf; lia].
Qed.

Lemma space_prefix_blank (c : ascii) (r : string) :
  strings.asciiSpace (byte_val c) = true -> strings.space_prefix (String c r) = 1%nat.
Proof. intro H. cbn [strings.space_prefix]. cbv zeta. rewrite H. reflexivity. Qed.

Lemma space_suffix_blank (c : ascii) (r : string) :
  strings.asciiSpace (byte_val c) = true -> strings.space_suffix (String c r) = 1%nat.
Proof. intro H. cbn [strings.space_suffix]. rewrite H. reflexivity. Qed.

Ltac bool_to_Z :=
  repeat match goal with
         | H : (_ && _) = true |- _ => apply andb_prop in H; destruct H
         | H : (_ || _) = true |- _ => apply orb_prop in H; destruct H
         | H : (_ =? _) = true |- _ => apply Z.eqb_eq in H
         | H : (_ <=? _) = true |- _ => apply Z.leb_le in H
         | H : (_ <? _) = true |- _ => apply Z.ltb_lt in H
         end.

Lemma space_prefix_plain (s : string) :
  starts_plain s = true \/ s = "" -> strings.space_prefix s = O.
Proof.
  intros [H| ->]; [|reflexivity].
  destruct s as [|c r]; [discriminate|].
  cbn [starts_plain] in H. apply andb_prop in H. destruct H as [Hlt Hns].
  apply Z.ltb_lt in Hlt. apply negb_true_iff in Hns.
  cbn [strings.space_prefix]. cbv zeta. rewrite Hns.
  destruct r as [|c1 [|c2 r2]]; try reflexivity.
  - destruct ((byte_val c =? 194) && ((byte_val c1 =? 133) || (byte_val c1 =? 160))) eqn:E;
      [|reflexivity].
    bool_to_Z; lia.
  - replace (byte_val c =? 194) with false by (symmetry; apply Z.eqb_neq; lia).
    replace (byte_val c =? 225) with false by (symmetry; apply Z.eqb_neq; lia).
    replace (byte_val c =? 226) with false by (symmetry; apply Z.eqb_neq; lia).
    replace (byte_val c =? 227) with false by (symmetry; apply Z.eqb_neq; lia).
    reflexivity.
Qed.

Lemma space_suffix_plain (s : string) :
  starts_plain s = true \/ s = "" -> strings.space_suffix s = O.
Proof.
  intros [H| ->]; [|reflexivity].
  destruct s as [|c r]; [discriminate|].
  cbn [starts_plain] in H. apply andb_prop in H. destruct H as [Hlt Hns].
  apply Z.ltb_lt in Hlt. apply negb_true_iff in Hns.
  cbn [strings.space_suffix]. rewrite Hns.
  destruct r as [|c1 [|c2 r2]]; try reflexivity.
  - destruct (Nat.eqb (strings.space_prefix (String c1 (String c ""))) 2) eqn:E;
      [|reflexivity].
    exfalso. apply Nat.eqb_eq in E. cbn [strings.space_prefix] in E. cbv zeta in E.
    destruct (strings.asciiSpace (byte_val c1)); [discriminate|].
    destruct ((byte_val c1 =? 194) && ((byte_val c =? 133) || (byte_val c =? 160))) eqn:E2;
      [|discriminate].
    bool_to_Z; lia.
  - destruct (Nat.eqb (strings.space_prefix (String c1 (String c ""))) 2) eqn:E.
    { exfalso. apply Nat.eqb_eq in E. cbn [strings.space_prefix] in E. cbv zeta in E.
      destruct (strings.asciiSpace (byte_val c1)); [discriminate|].
      destruct ((byte_val c1 =? 194) && ((byte_val c =? 133) || (byte_val c =? 160))) eqn:E2;
        [|discriminate].
      bool_to_Z; lia. }
    destruct (Nat.eqb (strings.space_prefix (String c2 (String c1 (String c "")))) 3) eqn:E3;
      [|reflexivity].
    exfalso. apply Nat.eqb_eq in E3. cbn [strings.space_prefix] in E3. cbv zeta in E3.
    destruct (strings.asciiSpace (byte_val c2)); [discriminate|].
    destruct ((byte_val c2 =? 194) && ((byte_val c1 =? 133) || (byte_val c1 =? 160)));
      [discriminate|].
    repeat match type of E3 with
           | (if ?b then _ else _) = _ => destruct b eqn:?; [bool_to_Z; lia|]
           end.
    discriminate.
Qed.

(** [TrimSpace] takes the blank text off both ends of a text that starts
    and ends with plain bytes, and empties a blank text. *)
Lemma TrimSpace_padded (ws p ws' : string) :
  blank ws = true -> blank ws' = true ->
  starts_plain p = true -> ends_plain p = true ->
  strings.TrimSpace (ws ++ p ++ ws') = p.
Proof.
  intros Hw Hw' Hs He.
  unfold strings.TrimSpace, strings.TrimLeftSpace.
  assert (Hsp : starts_plain (p ++ ws') = true).
  { destruct p; [discriminate | exact Hs]. }
  rewrite (trim_blank_head _ space_prefix_blank ws (p ++ ws')%string);
    [| exact Hw | apply space_prefix_plain; left; exact Hsp
     | rewrite string_length_app; lia].
  unfold strings.TrimRightSpace.
  rewrite string_rev_app.
  rewrite (trim_blank_head _ space_suffix_blank (string_rev ws') (string_rev p));
    [apply string_rev_involutive
    | rewrite blank_rev; exact Hw'
    | apply space_suffix_plain; left; exact He
    | rewrite string_length_app, string_rev_length; lia].
Qed.

Lemma TrimSpace_blank (ws : string) : blank ws = true -> strings.TrimSpace ws = "".
Proof.
  intro Hw. unfold strings.TrimSpace, strings.TrimLeftSpace.
  rewrite <- (string_app_nil_r ws) at 2.
  rewrite (trim_blank_head _ space_prefix_blank ws ""); auto.
Qed.

Lemma Split_pieces_clean (s : string) (sep : ascii) :
  Forall (fun p => contains sep p = false) (strings.Split s sep).
Proof.
  induction s as [|c r IH]; cbn [strings.Split].
  - constructor; [reflexivity | constructor].
  - destruct (Ascii.eqb c sep) eqn:E.
    + constructor; [reflexivity | exact IH].
    + destruct (strings.Split r sep) as [|p ps].
      * constructor; [|constructor]. cbn [contains]. rewrite E. reflexivity.
      * inversion IH; subst. constructor; [|assumption].
        cbn [contains]. rewrite E. assumption.
Qed.

Section MoreProcessData.

Context {platform : Platform}.

(** X10: a payload whose decoded record has an empty request line, as when
    the payload has no "request" key or is no JSON at all and the decoder
    stores nothing, is echoed between two banners and then makes
    [processData] panic with index out of range [1] with length 1: no row
    is printed. *)
Theorem missing_request_panics (data : string) (addr : UDPAddr) :
  data <> "" -> strings.TrimSpace data <> "" ->
  Request (fst (Unmarshal (strings.TrimSpace data) LogData_zero)) = "" ->
  processData data addr
  = ([Stderr banner; Stdout (strings.TrimSpace data); Stderr banner],
     Panicked (IndexOutOfRange 1 1)).
Proof.
  intros Hd Ht Hreq.
  rewrite processData_converts by assumption.
  pose proof (toNginxAccessLog_cases
                (fst (Unmarshal (strings.TrimSpace data) LogData_zero))) as Hc.
  rewrite Hreq in Hc. cbn [strings.Split] in Hc. rewrite Hc. reflexivity.
Qed.

(** X11: in every row the method, the URI and the version hold no space,
    and the request line of the record is these three, and the pieces
    that were left out if there were more, joined by single spaces. *)
Theorem request_line_is_cut_at_spaces (l : LogData) (r : NginxAccessLog) :
  toNginxAccessLog l = Returned r ->
  contains " " (Method r) = false
  /\ contains " " (RequestUri r) = false
  /\ contains " " (HttpVersion r) = false
  /\ exists rest,
       Request l = strings.Join (Method r :: RequestUri r :: HttpVersion r :: rest) " "
       /\ Forall (fun p => contains " " p = false) rest.
Proof.
  intro H. apply toNginxAccessLog_returns in H.
  destruct H as (a & b & c & rest & Hs & ->).
  cbn [row_of Method RequestUri HttpVersion].
  pose proof (Split_pieces_clean (Request l) " ") as Hc.
  rewrite Hs in Hc.
  inversion Hc as [|? ? Ha Hc1]; subst.
  inversion Hc1 as [|? ? Hb Hc2]; subst.
  inversion Hc2 as [|? ? Hcc Hc3]; subst.
  repeat split; try assumption.
  exists rest. split; [|assumption].
  rewrite <- Hs. symmetry. apply Join_Split.
Qed.

(** X12: white space around a payload does not count: a payload that
    starts and ends with plain bytes (as a JSON object does), with ASCII
    white space before and after it, is processed as the payload alone;
    and a datagram of ASCII white space only is skipped. *)
Theorem white_space_around_payload_is_ignored (ws p ws' : string) (addr : UDPAddr) :
  blank ws = true -> blank ws' = true ->
  (starts_plain p = true -> ends_plain p = true ->
   processData (ws ++ p ++ ws') addr = processData p addr)
  /\ processData ws addr = ([], Returned tt).
Proof.
  intros Hw Hw'. split.
  - intros Hs He.
    assert (Hp : p <> "") by (destruct p; [discriminate | discriminate]).
    assert (Ht : strings.TrimSpace (ws ++ p ++ ws') = p)
      by (apply TrimSpace_padded; assumption).
    assert (Ht' : strings.TrimSpace p = p).
    { pose proof (TrimSpace_padded "" p "" eq_refl eq_refl Hs He) as H.
      cbn [String.append] in H. rewrite string_app_nil_r in H. exact H. }
    rewrite (processData_converts (ws ++ p ++ ws')), (processData_converts p);
      rewrite ?Ht, ?Ht'; try assumption; try reflexivity.
    intro E. apply (f_equal String.length) in E.
    rewrite !string_length_app in E. destruct p; [contradiction|]. cbn in E. lia.
  - apply processData_skips. right. apply TrimSpace_blank. exact Hw.
Qed.

End MoreProcessData.

(** ** The integer fields of a row *)

Section IntegerFields.

Context {platform : Platform}.

(** X13: the four integer fields of a row read every numeral: a field
    whose text is an optional sign and decimal digits (leading zeros
    allowed, of any length) gets the integer the text denotes when that is
    an [int], and the bound of [int] next to it otherwise. *)
Theorem integer_fields_read_every_numeral (l : LogData) (r : NginxAccessLog) :
  toNginxAccessLog l = Returned r ->
  (forall n, numeral (Status l) = Some n ->
             Status' r = Z.max minInt64 (Z.min maxInt64 n))
  /\ (forall n, numeral (BodyBytesSent l) = Some n ->
                BodyBytesSent' r = Z.max minInt64 (Z.min maxInt64 n))
  /\ (forall n, numeral (RequestLength l) = Some n ->
                RequestLength' r = Z.max minInt64 (Z.min maxInt64 n))
  /\ (forall n, numeral (BytesSent l) = Some n ->
                BytesSent' r = Z.max minInt64 (Z.min maxInt64 n)).
Proof.
  intro H. apply toNginxAccessLog_returns in H.
  destruct H as (a & b & c & rest & _ & ->).
  cbn [row_of Status' BodyBytesSent' RequestLength' BytesSent'].
  repeat split; intros n Hn; rewrite (Atoi_complete _ n Hn); apply saturated_fst.
Qed.

End IntegerFields.

(** ** The date tells the second *)

Lemma byte_val_chr (n : Z) : 0 <= n < 256 -> byte_val (byte_chr n) = n.
Proof.
  intro H. unfold byte_val, byte_chr.
  rewrite N_ascii_embedding by lia. lia.
Qed.

Lemma digit_inj (a b : Z) :
  0 <= a <= 9 -> 0 <= b <= 9 -> digit a = digit b -> a = b.
Proof.
  intros Ha Hb H. unfold digit in H.
  apply (f_equal byte_val) in H.
  rewrite !byte_val_chr in H by lia. lia.
Qed.

Lemma two_digits_inj (a b : Z) :
  0 <= a < 100 -> 0 <= b < 100 -> two_digits a = two_digits b -> a = b.
Proof.
  intros Ha Hb H. unfold two_digits in H.
  injection H as H1 H2.
  apply digit_inj in H1; [|Z.div_mod_to_equations; lia..].
  apply digit_inj in H2; [|Z.div_mod_to_equations; lia..].
  Z.div_mod_to_equations. lia.
Qed.

Lemma four_digits_inj (a b : Z) :
  0 <= a < 10000 -> 0 <= b < 10000 -> four_digits a = four_digits b -> a = b.
Proof.
  intros Ha Hb H. unfold four_digits, two_digits in H.
  injection H as H1 H2 H3 H4.
  apply digit_inj in H1; [|Z.div_mod_to_equations; lia..].
  apply digit_inj in H2; [|Z.div_mod_to_equations; lia..].
  apply digit_inj in H3; [|Z.div_mod_to_equations; lia..].
  apply digit_inj in H4; [|Z.div_mod_to_equations; lia..].
  Z.div_mod_to_equations. lia.
Qed.

(** A text renders one instant at most. *)
Lemma renders_functional (text : string) (s1 s2 : Z) :
  renders text s1 -> renders text s2 -> s1 = s2.
Proof.
  intros (y & mo & d & h & mi & s & Hy & Hmo & Hd & Hh & Hmi & Hs & <- & ->)
         (y' & mo' & d' & h' & mi' & s' & Hy' & Hmo' & Hd' & Hh' & Hmi' & Hs' & <- & Ht).
  assert (Hlen : forall l m, month_length l m <= 31).
  { intros l m. unfold month_length.
    destruct (m =? 2); [destruct l; lia|].
    destruct ((m =? 4) || (m =? 6) || (m =? 9) || (m =? 11)); lia. }
  pose proof (Hlen (leap_year y) mo). pose proof (Hlen (leap_year y') mo').
  unfold four_digits, two_digits in Ht.
  cbn [String.append] in Ht.
  injection Ht as Y1 Y2 Y3 Y4 M1 M2 D1 D2 H1 H2 I1 I2 S1 S2.
  assert (Ey : y' = y).
  { apply four_digits_inj; [lia | lia |].
    unfold four_digits, two_digits. congruence. }
  assert (Emo : mo' = mo).
  { apply two_digits_inj; [lia | lia |]. unfold two_digits. congruence. }
  assert (Ed : d' = d).
  { apply two_digits_inj; [lia | lia |]. unfold two_digits. congruence. }
  assert (Eh : h' = h).
  { apply two_digits_inj; [lia | lia |]. unfold two_digits. congruence. }
  assert (Emi : mi' = mi).
  { apply two_digits_inj; [lia | lia |]. unfold two_digits. congruence. }
  assert (Es : s' = s).
  { apply two_digits_inj; [lia | lia |]. unfold two_digits. congruence. }
  congruence.
Qed.

Section DateTells.

Context {platform : Platform}.

(** X14: the date of a row tells the second: for two records that are
    converted, with timestamps whose integer parts [t] and [t'] fall, in
    the zone of the process, in the years 0000 to 9999, the rows have the
    same date exactly when the two instants are the same second of local
    time. *)
Theorem date_tells_the_second (l l' : LogData) (r r' : NginxAccessLog) (t t' : Z) :
  toNginxAccessLog l = Returned r ->
  toNginxAccessLog l' = Returned r' ->
  float64_trunc (Date l) = Some t ->
  float64_trunc (Date l') = Some t' ->
  minInt64 <= t <= maxInt64 ->
  minInt64 <= t' <= maxInt64 ->
  -62167219200 <= t + Local t <= 253402300799 ->
  -62167219200 <= t' + Local t' <= 253402300799 ->
  (TimeIso8601 r = TimeIso8601 r' <-> t + Local t = t' + Local t').
Proof.
  intros Hr Hr' Ht Ht' Hi Hi' Hrange Hrange'.
  apply toNginxAccessLog_returns in Hr. destruct Hr as (a & b & c & rest & _ & ->).
  apply toNginxAccessLog_returns in Hr'. destruct Hr' as (a' & b' & c' & rest' & _ & ->).
  cbn [row_of TimeIso8601].
  unfold int64_of_float64. rewrite Ht, Ht'.
  replace ((minInt64 <=? t) && (t <=? maxInt64)) with true
    by (symmetry; apply andb_true_intro; split; apply Z.leb_le; lia).
  replace ((minInt64 <=? t') && (t' <=? maxInt64)) with true
    by (symmetry; apply andb_true_intro; split; apply Z.leb_le; lia).
  unfold time.Unix. split.
  - intro E.
    pose proof (Format_renders t (Local t) Hrange) as R.
    pose proof (Format_renders t' (Local t') Hrange') as R'.
    rewrite E in R. exact (renders_functional _ _ _ R R').
  - intro E. unfold time.Format, time.abs.
    cbn [time.unixSec time.zoneOffset]. rewrite E. reflexivity.
Qed.

End DateTells.

(** ** The test client *)

Lemma len_app (a b : string) : len (a ++ b) = len a + len b.
Proof. unfold len. rewrite string_length_app. lia. Qed.

Lemma len_copies (k : nat) (s : string) : len (copies k s) = Z.of_nat k * len s.
Proof.
  induction k as [|k IH]; [reflexivity|].
  cbn [copies]. rewrite len_app, IH. lia.
Qed.

Lemma string_take_length (n : nat) (s : string) :
  (n <= String.length s)%nat -> String.length (string_take n s) = n.
Proof.
  revert s. induction n as [|n IH]; intros s H; [reflexivity|].
  destruct s as [|c s]; cbn in H; [lia|].
  cbn [string_take String.length]. rewrite IH by lia. reflexivity.
Qed.

Lemma string_take_get (n i : nat) (s : string) :
  (i < n)%nat -> String.get i (string_take n s) = String.get i s.
Proof.
  revert i s. induction n as [|n IH]; intros i s H; [lia|].
  destruct s as [|c s]; [reflexivity|].
  cbn [string_take]. destruct i as [|i]; [reflexivity|].
  cbn [String.get]. apply IH. lia.
Qed.

Lemma get_app_left (a b : string) (i : nat) :
  (i < String.length a)%nat -> String.get i (a ++ b) = String.get i a.
Proof.
  revert i. induction a as [|c a IH]; intros i H; cbn in H; [lia|].
  destruct i as [|i]; [reflexivity|].
  cbn [String.append String.get]. apply IH. lia.
Qed.

Lemma get_app_right (a b : string) (i : nat) :
  String.get (String.length a + i) (a ++ b) = String.get i b.
Proof.
  induction a as [|c a IH]; [reflexivity|].
  cbn [String.length String.append Nat.add String.get]. exact IH.
Qed.

(** The bytes of [copies k s] are those of [s], over and over. *)
Lemma get_copies (s : string) (k i : nat) :
  (i < k * String.length s)%nat ->
  String.get i (copies k s) = String.get (i mod String.length s) s.
Proof.
  induction k as [|k IH]; intro H; [lia|].
  assert (Hs : (String.length s <> 0)%nat) by (destruct (String.length s); lia).
  assert (Hl : String.length (copies k s) = (k * String.length s)%nat).
  { pose proof (len_copies k s) as E. unfold len in E. lia. }
  cbn [copies].
  destruct (Nat.lt_ge_cases i (k * String.length s)) as [Hlt|Hge].
  - rewrite get_app_left by lia. apply IH. exact Hlt.
  - replace i with (String.length (copies k s) + (i - k * String.length s))%nat at 1 by lia.
    rewrite get_app_right.
    f_equal.
    apply Nat.mod_unique with (q := k); lia.
Qed.

(** The loop ends: started on [k] copies of [base], with a test of the
    condition left for each copy that is missing and one more, it gives
    the first run of copies that is long enough. *)
Lemma fill_returns (size : Z) (fuel : nat) :
  forall k : nat,
    size <= 36 * (Z.of_nat k + Z.of_nat fuel - 1) -> (0 < fuel)%nat ->
    exists k' : nat,
      client.fill fuel size (copies k client.base) = Some (copies k' client.base)
      /\ size <= 36 * Z.of_nat k'
      /\ (k' = k \/ 36 * (Z.of_nat k' - 1) < size).
Proof.
  induction fuel as [|fuel IH]; intros k Hsize Hfuel; [lia|].
  cbn [client.fill].
  rewrite len_copies. change (len client.base) with 36.
  destruct (Z.ltb_spec (Z.of_nat k * 36) size) as [Hlt|Hge].
  - destruct fuel as [|fuel']; [lia|].
    destruct (IH (S k)) as (k' & Hf & Hk & Hmin); [lia | lia |].
    exists k'. split; [exact Hf|]. split; [exact Hk|].
    right. destruct Hmin as [->|Hmin]; lia.
  - exists k. split; [reflexivity|]. split; [lia|]. left. reflexivity.
Qed.

(** X15: [generateMessage(size)] returns, for a positive [size], a
    message of exactly [size] bytes, which are the 36 letters and digits
    of [base] over and over; the loop ends after one test of its condition
    for every 36 bytes and two more at most, and the slice never panics.
    For a [size] that is not positive the message is test, of four
    bytes. *)
Theorem generateMessage_has_size (size : Z) (fuel : nat) :
  size / 36 + 2 <= Z.of_nat fuel ->
  (size <= 0 -> client.generateMessage fuel size = Some (client.Slice "test"))
  /\ (0 < size ->
      exists message,
        client.generateMessage fuel size = Some (client.Slice message)
        /\ len message = size
        /\ forall i : nat,
             Z.of_nat i < size ->
             String.get i message = String.get (i mod 36) client.base).
Proof.
  intro Hfuel. unfold client.generateMessage. split.
  - intro H. replace (size <=? 0) with true by (symmetry; apply Z.leb_le; lia).
    reflexivity.
  - intro H. replace (size <=? 0) with false by (symmetry; apply Z.leb_gt; lia).
    destruct (fill_returns size fuel 0) as (k & Hf & Hk & _).
    { pose proof (Z.div_mod size 36 ltac:(lia)) as Hd.
      pose proof (Z.mod_pos_bound size 36 ltac:(lia)) as Hm. lia. }
    { assert (0 <= size / 36) by (apply Z.div_pos; lia). lia. }
    cbn [copies] in Hf. rewrite Hf.
    assert (Hl : String.length (copies k client.base) = (k * 36)%nat).
    { pose proof (len_copies k client.base) as E. unfold len in E.
      change (String.length client.base) with 36%nat in E. lia. }
    unfold client.slice_to.
    replace ((0 <=? size) && (size <=? len (copies k client.base))) with true
      by (symmetry; apply andb_true_intro; split; apply Z.leb_le;
          unfold len; rewrite ?Hl; lia).
    eexists. split; [reflexivity|]. split.
    + unfold len. rewrite string_take_length by (rewrite Hl; lia). lia.
    + intros i Hi. rewrite string_take_get by lia.
      rewrite (get_copies client.base k i)
        by (change (String.length client.base) with 36%nat; lia).
      reflexivity.
Qed.

(** * Runs *)

(** ** The library *)

Example Atoi_200 : strconv.Atoi "200" = (200, None).
Proof. reflexivity. Qed.

Example Atoi_abc : strconv.Atoi "abc" = (0, Some strconv.ErrSyntax).
Proof. reflexivity. Qed.

Example Atoi_neg : strconv.Atoi "-17" = (-17, None).
Proof. reflexivity. Qed.

Example Atoi_big :
  strconv.Atoi "99999999999999999999" = (9223372036854775807, Some strconv.ErrRange).
Proof. vm_compute. reflexivity. Qed.

Example Atoi_min :
  strconv.Atoi "-9223372036854775808" = (-9223372036854775808, None).
Proof. vm_compute. reflexivity. Qed.

Example Atoi_digits_then_letter :
  strconv.Atoi "99999999999999999999a" = (9223372036854775807, Some strconv.ErrRange).
Proof. reflexivity. Qed.

Example Atoi_largest_uint64_then_letter :
  strconv.Atoi "18446744073709551615x" = (0, Some strconv.ErrSyntax).
Proof. reflexivity. Qed.

Example Atoi_max1 :
  strconv.Atoi "9223372036854775808" = (9223372036854775807, Some strconv.ErrRange).
Proof. vm_compute. reflexivity. Qed.

Example Split_request :
  strings.Split "GET /hyperfApi/demo/test HTTP/1.1" " "
  = ["GET"; "/hyperfApi/demo/test"; "HTTP/1.1"].
Proof. reflexivity. Qed.

Example Split_double : strings.Split "GET  /x" " " = ["GET"; ""; "/x"].
Proof. reflexivity. Qed.

Example TrimSpace_ex : strings.TrimSpace "  {a b}
 " = "{a b}".
Proof. reflexivity. Qed.

Example Format_sample :
  time.Format (time.Unix (fun _ => 0) 1751372240) = "2025-07-01 12:17:20".
Proof. vm_compute. reflexivity. Qed.

Example Format_sample_cst :
  time.Format (time.Unix (fun _ => 8 * 3600) 1751372240) = "2025-07-01 20:17:20".
Proof. vm_compute. reflexivity. Qed.

Example Format_epoch : time.Format (time.Unix (fun _ => 0) 0) = "1970-01-01 00:00:00".
Proof. vm_compute. reflexivity. Qed.

Example Format_leap_day :
  time.Format (time.Unix (fun _ => 0) 1709251199) = "2024-02-29 23:59:59".
Proof. vm_compute. reflexivity. Qed.

Example Format_year_10000 :
  time.Format (time.Unix (fun _ => 0) 253402300800) = "10000-01-01 00:00:00".
Proof. vm_compute. reflexivity. Qed.

Example Format_before_epoch :
  time.Format (time.Unix (fun _ => 0) (-1)) = "1969-12-31 23:59:59".
Proof. vm_compute. reflexivity. Qed.

Example ParseFloat_0071 :
  decimal.ParseFloat "0.071" = (S754_finite false 5116089176692883 (-56), None).
Proof. vm_compute. reflexivity. Qed.

Example ParseFloat_date :
  decimal.ParseFloat "1751372240.0" = (S754_finite false 7345787591720960 (-22), None).
Proof. vm_compute. reflexivity. Qed.

Example ParseFloat_huge :
  decimal.ParseFloat "1e999" = (S754_infinity false, Some strconv.ErrRange).
Proof. vm_compute. reflexivity. Qed.

Example Unmarshal_sample :
  json.Unmarshal sample_payload LogData_zero = (sample_record, None).
Proof. vm_compute. reflexivity. Qed.

Example Unmarshal_garbage :
  json.Unmarshal "not json" LogData_zero = (LogData_zero, Some SyntaxError).
Proof. vm_compute. reflexivity. Qed.

Example Unmarshal_wrong_kind :
  json.Unmarshal (dq "{'status':200,'request':'GET /x HTTP/1.1'}") LogData_zero
  = (json.set_string json.FRequest "GET /x HTTP/1.1" LogData_zero,
     Some UnmarshalTypeError).
Proof. vm_compute. reflexivity. Qed.

(** ** Conversions on the platform [utc] *)

Example toNginxAccessLog_sample :
  @toNginxAccessLog utc sample_record = Returned sample_row.
Proof. vm_compute. reflexivity. Qed.

Example processData_sample :
  @processData utc sample_payload localhost
  = ([Stderr banner; Stdout sample_payload; Stderr banner;
      Stderr banner; StdoutRow sample_row; Stderr banner;
      Stderr banner; Stdout inserted; Stderr banner], Returned tt).
Proof. vm_compute. reflexivity. Qed.

(** C1 on the request line "GET /x", which has two pieces: [url[2]]
    panics. *)
Lemma two_piece_request_line_panics :
  @toNginxAccessLog utc (request_only "GET /x") = Panicked (IndexOutOfRange 2 2).
Proof.
  exact (@short_request_line_panics utc (request_only "GET /x")
           ltac:(vm_compute; lia)).
Defined.

Example processData_two_pieces :
  snd (@processData utc (dq "{'request':'GET /x','status':'200'}") localhost)
  = Panicked (IndexOutOfRange 2 2).
Proof. vm_compute. reflexivity. Qed.

Example five_piece_request_line_converts :
  @toNginxAccessLog utc (request_only "GET /a b HTTP/1.1 x")
  = Returned (@row_of utc (request_only "GET /a b HTTP/1.1 x") "GET" "/a" "b").
Proof. vm_compute. reflexivity. Qed.




(** The claim C8 fails in the year 10000: the date has five digits of
    year, and is no text of the form YYYY-MM-DD HH:MM:SS. *)
Lemma year_10000_has_five_digits :
  float64_trunc (Date year_10000) = Some 253402300800
  /\ (exists r, @toNginxAccessLog utc year_10000 = Returned r
                /\ TimeIso8601 r = "10000-01-01 00:00:00")
  /\ ~ renders "10000-01-01 00:00:00" 253402300800.
Proof.
  split; [vm_compute; reflexivity|].
  split; [eexists; split; vm_compute; reflexivity|].
  intros (y & mo & d & h & mi & s & _ & _ & _ & _ & _ & _ & _ & Htext).
  apply (f_equal String.length) in Htext.
  cbn in Htext. discriminate.
Defined.

(** C8 (amended) on the timestamp of the sample payload, in UTC. *)
Lemma sample_date_renders : renders (TimeIso8601 sample_row) 1751372240.
Proof.
  exact (@datetime_renders_timestamp utc sample_record sample_row 1751372240
           ltac:(vm_compute; reflexivity) ltac:(vm_compute; reflexivity)
           ltac:(vm_compute; split; discriminate) ltac:(vm_compute; split; discriminate)).
Defined.

(** The claim C9 fails: nothing is handed to the store for the sample
    payload, of the source or of the specification, and the URI of the
    latter is /path. *)
Lemma sample_payload_is_not_stored :
  stored (fst (@processData utc sample_payload localhost)) = []
  /\ rows (fst (@processData utc sample_payload localhost)) = [sample_row]
  /\ stored (fst (@processData utc spec_sample_payload localhost)) = []
  /\ map RequestUri (rows (fst (@processData utc spec_sample_payload localhost)))
     = ["/path"].
Proof. repeat split; vm_compute; reflexivity. Defined.

(** C9 (amended) on the sample payload of the source. *)
Lemma sample_payload_prints_one_row :
  exists r,
    rows (fst (@processData utc sample_payload localhost)) = [r]
    /\ Method r = "GET"
    /\ RequestUri r = "/hyperfApi/demo/test"
    /\ HttpVersion r = "HTTP/1.1"
    /\ Status' r = 200
    /\ BodyBytesSent' r = 154
    /\ RequestTime' r = fst (@ParseFloat utc "0.071").
Proof.
  destruct (@row_printed_once_nothing_stored utc sample_payload localhost)
    as (_ & _ & H).
  exact (H sample_record
           ltac:(vm_compute; discriminate) ltac:(vm_compute; discriminate)
           ltac:(vm_compute; reflexivity) eq_refl eq_refl eq_refl eq_refl).
Defined.

(** ** A pool of two workers *)

Example NewWorkerPool_two : NewWorkerPool 2 = Some pool_of_two.
Proof. reflexivity. Qed.

Example NewWorkerPool_negative : @NewWorkerPool string string (-1) = None.
Proof. reflexivity. Qed.

Example run_drain : run pool_of_two drain = Some drained.
Proof. reflexivity. Qed.

(** [Close] cannot return while a task runs. *)
Example Close_waits :
  run pool_of_two [CallSubmit (Some "a"); Receive 0; CallClose; Receive 1; WaitReturns]
  = None.
Proof. reflexivity. Qed.

(** C3 on the run [drain]. *)
Lemma drained_pool_has_executed_all :
  Permutation ["a"; "b"; "c"] ["b"; "a"; "c"]
  /\ buf (taskQueue (pool drained)) = []
  /\ Forall (fun w => w = Exited) (goroutines drained).
Proof.
  assert (Hr : reachable drained).
  { exists 2, pool_of_two, drain. split; reflexivity. }
  destruct (Close_returns_after_accepted_tasks string string drained Hr) as [_ H].
  exact (H eq_refl).
Defined.

(** C2 (amended) on an open pool that holds one task. *)
Lemma Submit_queues_second_task :
  Submit open_pool (Some "b")
  = SubmitReturns true
      {| workers := 2;
         taskQueue := {| buf := ["a"; "b"]; cap := 200; closed := false |};
         wg := 2 |}.
Proof.
  destruct (Submit_on_open_pool string open_pool (Some "b") eq_refl) as (_ & _ & _ & H).
  exact (H "b" eq_refl ltac:(vm_compute; reflexivity)).
Defined.

(** The claim C2 fails on a closed pool: [Submit] neither queues the task
    nor returns false, it panics; also when the queue is full. *)
Lemma Submit_on_closed_pool_panics :
  option_map (fun s => Submit (pool s) (Some "late")) (run pool_of_two [CallClose])
  = Some (SubmitPanics SendOnClosedChannel)
  /\ Submit {| workers := 0;
               taskQueue := {| buf := []; cap := 0; closed := true |};
               wg := 0 |} (Some "late")
     = SubmitPanics SendOnClosedChannel.
Proof. split; reflexivity. Defined.

Example run_one_running :
  run pool_of_two [CallSubmit (Some "a"); CallSubmit (Some "b"); Receive 0]
  = Some one_running.
Proof. reflexivity. Qed.

(** C4 on the panic of the task of worker 0, a second task waiting. *)
Lemma worker_survives_panic :
  exists s',
    step one_running (TaskPanics 0 "boom") = Some s'
    /\ logged s' = [(0%nat, "boom")]
    /\ goroutines s' = [Receiving; Receiving]
    /\ exists s'',
         step s' (Receive 0) = Some s''
         /\ nth_error (goroutines s'') 0 = Some (Running "b").
Proof.
  destruct (panic_is_recovered_and_logged string string one_running 0 "a" "boom" eq_refl)
    as (s' & Hs & Hg & Hl & _ & Ho & _ & _ & _ & Hnext & _).
  exists s'. split; [exact Hs|]. split; [exact Hl|].
  split.
  - cbn in Hs. inversion Hs. reflexivity.
  - exact (Hnext "b" [] eq_refl).
Defined.

(** C10 on the pool of two workers, closed and drained. *)
Lemma Submit_panics_after_Close :
  Submit (pool drained) (Some "late") = SubmitPanics SendOnClosedChannel.
Proof.
  exact (proj2 (Submit_after_Close_panics string string
                  pool_of_two
                  {| pool := {| workers := 2;
                                taskQueue := {| buf := []; cap := 200; closed := true |};
                                wg := 2 |};
                     goroutines := [Receiving; Receiving];
                     closing := InWait; logged := []; accepted := []; executed := [] |}
                  {| pool := {| workers := 2;
                                taskQueue := {| buf := []; cap := 200; closed := true |};
                                wg := 0 |};
                     goroutines := [Exited; Exited];
                     closing := CloseReturned; logged := []; accepted := [];
                     executed := [] |}
                  [Receive 0; Receive 1; WaitReturns] "late" eq_refl eq_refl)).
Defined.

(** ** The receive loop *)

(** The claim C6 fails: the task of an empty datagram, and of one of
    white space only, is submitted and queued like any other. *)
Lemma empty_datagram_is_submitted :
  serve fresh_pool (ReadOk "" localhost)
  = Continues
      {| workers := 1;
         taskQueue := {| buf := [mkClosure "" localhost]; cap := 100; closed := false |};
         wg := 1 |} []
  /\ serve fresh_pool (ReadOk "   " localhost)
     = Continues
         {| workers := 1;
            taskQueue := {| buf := [mkClosure "   " localhost]; cap := 100;
                            closed := false |};
            wg := 1 |} [].
Proof. split; reflexivity. Defined.

(** C6 (amended) on a datagram of three spaces. *)
Lemma blank_datagram_is_queued_and_skipped :
  serve fresh_pool (ReadOk "   " localhost)
  = Continues
      {| workers := 1;
         taskQueue := {| buf := [mkClosure "   " localhost]; cap := 100;
                         closed := false |};
         wg := 1 |} []
  /\ @call utc (mkClosure "   " localhost) = ([], Returned tt).
Proof.
  destruct (@every_datagram_is_submitted utc fresh_pool "   " localhost)
    as (Hq & _ & Hskip & _).
  split.
  - exact (Hq eq_refl ltac:(vm_compute; reflexivity)).
  - apply Hskip. right. vm_compute. reflexivity.
Defined.

Example serve_read_error :
  serve fresh_pool ReadFails = Continues fresh_pool [LogReadFailed].
Proof. reflexivity. Qed.

(** ** More runs of the pool *)

Example run_closing_pool :
  run pool_of_two [CallSubmit (Some "a"); CallSubmit (Some "b"); Receive 0; CallClose]
  = Some closing_pool.
Proof. reflexivity. Qed.

(** X1 on the pool with one task running and one queued. *)
Lemma one_running_conserves_tasks :
  Permutation (accepted one_running)
    (map fst (executed one_running) ++ ["a"] ++ ["b"]).
Proof.
  apply (tasks_are_conserved string string one_running).
  exists 2, pool_of_two,
    [CallSubmit (Some "a"); CallSubmit (Some "b"); Receive 0].
  split; reflexivity.
Defined.

(** X2 on the same pool. *)
Lemma one_running_is_bounded :
  Z.of_nat (List.length (goroutines one_running)) = 2
  /\ cap (taskQueue (pool one_running)) = 2 * 100
  /\ Z.of_nat (List.length (buf (taskQueue (pool one_running)))) <= 2 * 100.
Proof.
  apply (queue_is_bounded string string one_running).
  exists 2, pool_of_two,
    [CallSubmit (Some "a"); CallSubmit (Some "b"); Receive 0].
  split; reflexivity.
Defined.

(** X3 on the drained pool. *)
Lemma drained_wait_group_is_zero :
  wg (pool drained) = Z.of_nat (alive (goroutines drained))
  /\ 0 <= wg (pool drained) <= 2
  /\ (wg (pool drained) = 0 <-> Forall (fun w => w = Exited) (goroutines drained)).
Proof.
  apply (wait_group_counts_workers string string drained).
  exists 2, pool_of_two, drain. split; reflexivity.
Defined.

(** X4 on the pool with one task running and one queued. *)
Lemma one_running_queue_is_fifo :
  exists started,
    ["a"; "b"] = started ++ ["b"]
    /\ Permutation started ([] ++ ["a"]).
Proof.
  apply (queue_is_fifo string string one_running).
  exists 2, pool_of_two,
    [CallSubmit (Some "a"); CallSubmit (Some "b"); Receive 0].
  split; reflexivity.
Defined.


(** X6 on the pool in which [Close] waits for a running and a queued
    task. *)
Lemma closing_pool_can_return :
  exists es s',
    run closing_pool es = Some s'
    /\ forallb draining es = true
    /\ closing s' = CloseReturned
    /\ accepted s' = ["a"; "b"]
    /\ Permutation ["a"; "b"] (map fst (executed s')).
Proof.
  apply (Close_can_return string string closing_pool).
  - exists 2, pool_of_two,
      [CallSubmit (Some "a"); CallSubmit (Some "b"); Receive 0; CallClose].
    split; reflexivity.
  - reflexivity.
Defined.

(** X7 on the pool in which [Close] waits, two steps of a worker
    later. *)
Lemma Close_of_closing_pool_panics :
  exists s',
    run closing_pool [TaskReturns 0; Receive 0] = Some s'
    /\ close (taskQueue (pool s')) = Panicked CloseOfClosedChannel
    /\ step s' CallClose = Some s'.
Proof.
  eexists. split; [reflexivity|].
  apply (second_Close_panics string string one_running closing_pool _
           [TaskReturns 0; Receive 0]); reflexivity.
Defined.

(** X8 on the pool with one task running and one queued: the second
    worker can take the queued task, and the running task can return. *)
Lemma one_running_is_not_stuck :
  (exists id s', step one_running (Receive id) = Some s'
                 /\ nth_error (goroutines s') id = Some (Running "b")
                 /\ buf (taskQueue (pool s')) = [])
  \/ (exists id s', step one_running (TaskReturns id) = Some s'
                    /\ nth_error (goroutines s') id = Some Receiving
                    /\ buf (taskQueue (pool s')) = ["b"]).
Proof.
  apply (queued_work_is_never_stuck string string one_running "b" []).
  - exists 2, pool_of_two,
      [CallSubmit (Some "a"); CallSubmit (Some "b"); Receive 0].
    split; reflexivity.
  - reflexivity.
Defined.

(** ** More runs of the receive loop *)

(** X9 on a fresh pool of one worker and the first message of the
    client. *)
Lemma hello_is_submitted :
  exists wp' log,
    serve (pool fresh_system) (ReadOk hello localhost) = Continues wp' log
    /\ exists s',
         step fresh_system (CallSubmit (Some (mkClosure hello localhost))) = Some s'
         /\ pool s' = wp'
         /\ closed (taskQueue wp') = false.
Proof.
  exact (receive_loop_goes_on RuntimeError 1 fresh_system fresh_system []
           (ReadOk hello localhost) eq_refl eq_refl eq_refl).
Defined.

(** X10 on that message, which is no JSON: the decoder stores nothing,
    and the task panics. *)
Lemma hello_panics :
  @processData utc hello localhost
  = ([Stderr banner; Stdout hello; Stderr banner], Panicked (IndexOutOfRange 1 1)).
Proof.
  apply (@missing_request_panics utc hello localhost).
  - discriminate.
  - vm_compute. discriminate.
  - vm_compute. reflexivity.
Defined.

(** X11 on the sample record. *)
Lemma sample_request_line_is_cut :
  contains " " (Method sample_row) = false
  /\ contains " " (RequestUri sample_row) = false
  /\ contains " " (HttpVersion sample_row) = false
  /\ exists rest,
       Request sample_record
       = strings.Join (Method sample_row :: RequestUri sample_row
                       :: HttpVersion sample_row :: rest) " "
       /\ Forall (fun p => contains " " p = false) rest.
Proof.
  apply (@request_line_is_cut_at_spaces utc sample_record sample_row).
  vm_compute. reflexivity.
Defined.

(** X12 on the sample payload, a space before it and a line feed after
    it, as a sender that ends its lines would send it. *)
Lemma padded_sample_payload_is_processed :
  (@processData utc (" " ++ sample_payload ++ line_feed) localhost
   = @processData utc sample_payload localhost)
  /\ @processData utc " " localhost = ([], Returned tt).
Proof.
  destruct (@white_space_around_payload_is_ignored utc " " sample_payload line_feed
              localhost eq_refl eq_refl) as [H1 H2].
  split; [|exact H2].
  apply H1; vm_compute; reflexivity.
Defined.

(** X13 on the record whose status has twenty digits. *)
Lemma huge_status_is_the_largest_int :
  exists r,
    @toNginxAccessLog utc huge_status = Returned r
    /\ Status' r = 9223372036854775807
    /\ BodyBytesSent' r = 154.
Proof.
  eexists. split; [vm_compute; reflexivity|].
  destruct (@integer_fields_read_every_numeral utc huge_status _ eq_refl)
    as (Hs & Hb & _).
  split.
  - exact (Hs 99999999999999999999 eq_refl).
  - exact (Hb 154 eq_refl).
Defined.

(** X14 on the sample record and the record of the next second: the
    dates differ. *)
Lemma next_second_has_another_date :
  exists r',
    @toNginxAccessLog utc sample_record_next = Returned r'
    /\ (TimeIso8601 sample_row = TimeIso8601 r' <-> 1751372240 + 0 = 1751372241 + 0).
Proof.
  eexists. split; [vm_compute; reflexivity|].
  apply (@date_tells_the_second utc sample_record sample_record_next _ _
           1751372240 1751372241);
    try (vm_compute; reflexivity);
    try (vm_compute; split; discriminate).
Defined.

(** ** The test client *)

Example generateMessage_40 :
  client.generateMessage 4 40
  = Some (client.Slice "abcdefghijklmnopqrstuvwxyz0123456789abcd").
Proof. reflexivity. Qed.

Example generateMessage_out_of_fuel : client.generateMessage 2 40 = None.
Proof. reflexivity. Qed.

(** X15 on the message size of the performance test. *)
Lemma test_message_has_100_bytes :
  exists message,
    client.generateMessage 5 100 = Some (client.Slice message)
    /\ len message = 100
    /\ forall i : nat,
         Z.of_nat i < 100 ->
         String.get i message = String.get (i mod 36) client.base.
Proof.
  destruct (generateMessage_has_size 100 5 ltac:(vm_compute; discriminate)) as [_ H].
  apply H. reflexivity.
Defined.
